(** * demo_IRR_assets: scene construction and the render loop

    A shallow embedding of [src/demos/python/irrlicht/demo_IRR_assets.py].

    The script is glue code: it creates bodies, a particle cloud and visual
    shapes through the Chrono API, adds them to one physical system, and then
    renders and steps that system in a loop.  Python objects live in arenas
    (one per class of object the script shares by reference) and are named by
    their index; every API call is a computation in a state-and-error monad
    over the [World], and appends what it did to [trace].

    Floating point numbers are modelled as rationals; angles, which the
    script builds from pi, are kept as rational multiples of pi; rotated and
    summed vectors are kept as terms. *)

From Stdlib Require Import QArith Lia.
From stdpp Require Import base option list strings.

(** ** Geometry values *)

(** An angle in radians, as a rational multiple of pi. *)
Record Angle := PiTimes { pi_factor : Q }.

Definition CH_C_PI_2 : Angle := PiTimes (1 # 2).
Definition CH_C_DEG_TO_RAD : Angle := PiTimes (1 # 180).
Definition angle_neg (a : Angle) : Angle := PiTimes (- pi_factor a).
Definition angle_scale (k : Q) (a : Angle) : Angle := PiTimes (k * pi_factor a).

Inductive Quaternion :=
| QUNIT
| Q_from_AngX (a : Angle)
| Q_from_AngY (a : Angle).

(** [ChMatrix33D(q)]: the same rotation, as a matrix. *)
Definition ChMatrix33D (q : Quaternion) : Quaternion := q.

Inductive ChVector :=
| ChVectorD (x y z : Q)
| VRotate (r : Quaternion) (v : ChVector)
| VPlus (a b : ChVector).

Record ChFrame := ChFrameD { pos : ChVector; rot : Quaternion }.

Definition ChFrame_identity : ChFrame := ChFrameD (ChVectorD 0 0 0) QUNIT.
Definition ChCoordsysD (p : ChVector) : ChFrame := ChFrameD p QUNIT.

Inductive ChLine :=
| ChLineSegment (a b : ChVector)
| ChLineArc (origin : ChFrame) (radius : Q) (angle1 angle2 : Angle)
| ChLineNurbs (data : option (nat * list ChVector)).

(** [nurbs.SetupData(order, points)] on a curve that nothing else refers to. *)
Definition SetupData (order : nat) (points : list ChVector) (l : ChLine) : ChLine :=
  match l with
  | ChLineNurbs _ => ChLineNurbs (Some (order, points))
  | _ => l
  end.

Record ChColor := mkChColor { red : Q; green : Q; blue : Q }.

Record recti := mkRecti { x1 : Z; y1 : Z; x2 : Z; y2 : Z }.

(** ** Objects the script shares by reference *)

(** A reference is the index of the object in the arena of its class. *)
Abbreviation EntityRef := nat (only parsing).
Abbreviation ShapeRef := nat (only parsing).
Abbreviation MaterialRef := nat (only parsing).

Record ChVisualMaterial := mkVisualMaterial { diffuse : option ChColor }.

Inductive ShapeGeometry :=
| Box (lx ly lz : Q)
| Sphere (radius : Q)
| Cylinder (radius height : Q)
| Path (sublines : list ChLine)
| Line (geometry : option ChLine)
| TriangleMesh (triangles : list (ChVector * ChVector * ChVector))
| ModelFile (filename : option string).

Record VisualShape := mkVisualShape {
  geometry : ShapeGeometry;
  color : option ChColor;
  texture : option string;
  materials : list MaterialRef
}.

Inductive ContactMaterial := ChMaterialSurfaceNSC.

Inductive CollisionShape :=
| ChCollisionShapeBox (mat : ContactMaterial) (lx ly lz : Q)
| ChCollisionShapeSphere (mat : ContactMaterial) (radius : Q).

Inductive EntityKind :=
| RigidBody
| ParticleCloud
| EasyConvexHullAuxRef (points : list ChVector) (density : Q)
    (visualize collide : bool) (mat : ContactMaterial).

(** A body or a particle cloud.  [particles] holds the members of a cloud,
    one frame each; everything else is held once, by the cloud. *)
Record Entity := mkEntity {
  kind : EntityKind;
  fixed : bool;
  collide : bool;
  pose : ChFrame;
  particles : list ChFrame;
  mass : option Q;
  inertia : option ChVector;
  collision : list (CollisionShape * ChFrame);
  visuals : list (ShapeRef * ChFrame)
}.

Definition new_entity (k : EntityKind) (c : bool) : Entity :=
  mkEntity k false c ChFrame_identity [] None None [] [].

Definition set_fixed (b : bool) (e : Entity) : Entity :=
  mkEntity (kind e) b (collide e) (pose e) (particles e) (mass e) (inertia e)
    (collision e) (visuals e).
Definition set_collide (b : bool) (e : Entity) : Entity :=
  mkEntity (kind e) (fixed e) b (pose e) (particles e) (mass e) (inertia e)
    (collision e) (visuals e).
Definition set_pose (p : ChFrame) (e : Entity) : Entity :=
  mkEntity (kind e) (fixed e) (collide e) p (particles e) (mass e) (inertia e)
    (collision e) (visuals e).
Definition set_particles (ps : list ChFrame) (e : Entity) : Entity :=
  mkEntity (kind e) (fixed e) (collide e) (pose e) ps (mass e) (inertia e)
    (collision e) (visuals e).
Definition set_mass (m : Q) (e : Entity) : Entity :=
  mkEntity (kind e) (fixed e) (collide e) (pose e) (particles e) (Some m)
    (inertia e) (collision e) (visuals e).
Definition set_inertia (v : ChVector) (e : Entity) : Entity :=
  mkEntity (kind e) (fixed e) (collide e) (pose e) (particles e) (mass e)
    (Some v) (collision e) (visuals e).
Definition set_collision (cs : list (CollisionShape * ChFrame)) (e : Entity) : Entity :=
  mkEntity (kind e) (fixed e) (collide e) (pose e) (particles e) (mass e)
    (inertia e) cs (visuals e).
Definition set_visuals (vs : list (ShapeRef * ChFrame)) (e : Entity) : Entity :=
  mkEntity (kind e) (fixed e) (collide e) (pose e) (particles e) (mass e)
    (inertia e) (collision e) vs.

(** ** The viewer *)

Inductive VisCall :=
| AttachSystem
| SetWindowSize (width height : Z)
| SetWindowTitle (title : string)
| Initialize
| AddLogo (file : string)
| AddSkyBox
| AddCamera (position : ChVector)
| AddTypicalLights.

Inductive Widget := StaticText (text : string) (rectangle : recti).

(** ** Events *)

(** What a shape looks like to whoever dereferences it: the descriptor and
    the materials it points to. *)
Definition ShapeView : Type := VisualShape * list (option ChVisualMaterial).

(** What one [Render] call draws: the items of the system, in the order they
    were added, as they are at that moment. *)
Definition FrameView : Type := list (EntityRef * Entity).

Inductive Event :=
| EvCreateEntity (e : EntityRef)
| EvConfigure (e : EntityRef)
| EvAdd (e : EntityRef)
| EvCreateShape (s : ShapeRef)
| EvMutateShape (s : ShapeRef)
| EvCreateMaterial (m : MaterialRef)
| EvMutateMaterial (m : MaterialRef)
| EvAttach (e : EntityRef) (s : ShapeRef) (seen : option ShapeView)
| EvVis (c : VisCall)
| EvBeginScene
| EvRender (view : FrameView)
| EvStaticText (w : Widget)
| EvEndScene
| EvStep (dt : Q).

(** ** The world *)

Inductive CollisionSystemType := Type_BULLET.

Record World := mkWorld {
  stdout : list string;
  entities : list Entity;
  shapes : list VisualShape;
  vmaterials : list ChVisualMaterial;
  system : list EntityRef;
  collision_system : option CollisionSystemType;
  gui : list Widget;
  rng : nat;
  trace : list Event
}.

Definition empty_world : World := mkWorld [] [] [] [] [] None [] 0 [].

Definition with_stdout (f : list string -> list string) (w : World) : World :=
  mkWorld (f (stdout w)) (entities w) (shapes w) (vmaterials w) (system w)
    (collision_system w) (gui w) (rng w) (trace w).
Definition with_entities (f : list Entity -> list Entity) (w : World) : World :=
  mkWorld (stdout w) (f (entities w)) (shapes w) (vmaterials w) (system w)
    (collision_system w) (gui w) (rng w) (trace w).
Definition with_shapes (f : list VisualShape -> list VisualShape) (w : World) : World :=
  mkWorld (stdout w) (entities w) (f (shapes w)) (vmaterials w) (system w)
    (collision_system w) (gui w) (rng w) (trace w).
Definition with_vmaterials (f : list ChVisualMaterial -> list ChVisualMaterial)
    (w : World) : World :=
  mkWorld (stdout w) (entities w) (shapes w) (f (vmaterials w)) (system w)
    (collision_system w) (gui w) (rng w) (trace w).
Definition with_system (f : list EntityRef -> list EntityRef) (w : World) : World :=
  mkWorld (stdout w) (entities w) (shapes w) (vmaterials w) (f (system w))
    (collision_system w) (gui w) (rng w) (trace w).
Definition with_collision_system (t : CollisionSystemType) (w : World) : World :=
  mkWorld (stdout w) (entities w) (shapes w) (vmaterials w) (system w)
    (Some t) (gui w) (rng w) (trace w).
Definition with_gui (f : list Widget -> list Widget) (w : World) : World :=
  mkWorld (stdout w) (entities w) (shapes w) (vmaterials w) (system w)
    (collision_system w) (f (gui w)) (rng w) (trace w).
Definition with_rng (f : nat -> nat) (w : World) : World :=
  mkWorld (stdout w) (entities w) (shapes w) (vmaterials w) (system w)
    (collision_system w) (gui w) (f (rng w)) (trace w).
Definition log (ev : Event) (w : World) : World :=
  mkWorld (stdout w) (entities w) (shapes w) (vmaterials w) (system w)
    (collision_system w) (gui w) (rng w) (trace w ++ [ev]).

(** ** Errors and the monad of API calls *)

Inductive Error :=
| DuplicateIdError
| NotFoundError
| DanglingEntityError
| InvalidTimestepError.

Inductive Result (A : Type) :=
| Ok (a : A)
| Raise (e : Error).
Arguments Ok {A} a.
Arguments Raise {A} e.

Definition M (A : Type) : Type := World -> Result (A * World).

Definition ret {A} (a : A) : M A := fun w => Ok (a, w).
Definition bind {A B} (m : M A) (k : A -> M B) : M B :=
  fun w => match m w with
           | Ok (a, w') => k a w'
           | Raise e => Raise e
           end.
Definition raise {A} (e : Error) : M A := fun _ => Raise e.
Definition gets {A} (f : World -> A) : M A := fun w => Ok (f w, w).
Definition modify (f : World -> World) : M unit := fun w => Ok (tt, f w).

Declare Scope chrono_scope.
Delimit Scope chrono_scope with chrono.
Notation "x <- m ;; k" := (bind m (fun x => k))
  (at level 100, m at next level, right associativity) : chrono_scope.
Notation "m ;; k" := (bind m (fun _ => k))
  (at level 100, right associativity) : chrono_scope.

(** A Python [for] over a list: the body runs once per element, in order,
    and the first exception ends the loop. *)
Fixpoint for_each {A} (l : list A) (body : A -> M unit) : M unit :=
  match l with
  | [] => ret tt
  | x :: rest => bind (body x) (fun _ => for_each rest body)
  end.

Definition for_range (n : nat) (body : nat -> M unit) : M unit :=
  for_each (seq 0 n) body.

Definition Qnat (n : nat) : Q := inject_Z (Z.of_nat n).

(** ** What the script takes from outside

    The physics solver, the random number generator and the location of the
    data directory belong to the Chrono library, not to the script. *)
Class ChronoLib := {
  (** the frame of an item, and of each of its particles, one tick of size
      [dt] after the system held [items] *)
  integrate : Q -> list Entity -> Entity -> ChFrame * list ChFrame;
  (** the value of the n-th call of [ChRandom()] *)
  ChRandom_draw : nat -> Q;
  ChronoDataPath : string
}.

(** ** The calls of the script

    The script has [sys], one physical system, and [vis], one viewer; the
    world holds the state of both.  The classes behind the calls belong to
    the Chrono and Irrlicht libraries, whose code is not under src/: each call
    is given the effect its name, the comment at its call site and the
    spec's list of external interfaces state, and nothing more. *)

Section API.
Context {lib : ChronoLib}.
Local Open Scope chrono_scope.

Definition print (s : string) : M unit := modify (with_stdout (fun out => out ++ [s])).

Definition GetChronoDataFile (name : string) : string := ChronoDataPath +:+ name.

Definition ChRandom : M Q :=
  n <- gets rng ;;
  modify (with_rng S) ;;
  ret (ChRandom_draw n).

(** *** Allocation *)

Definition alloc_entity (e : Entity) : M EntityRef :=
  r <- gets (fun w => length (entities w)) ;;
  modify (fun w => log (EvCreateEntity r) (with_entities (fun es => es ++ [e]) w)) ;;
  ret r.

Definition alloc_shape (g : ShapeGeometry) : M ShapeRef :=
  r <- gets (fun w => length (shapes w)) ;;
  modify (fun w => log (EvCreateShape r)
                     (with_shapes (fun ss => ss ++ [mkVisualShape g None None []]) w)) ;;
  ret r.

Definition ChVisualMaterial_new : M MaterialRef :=
  r <- gets (fun w => length (vmaterials w)) ;;
  modify (fun w => log (EvCreateMaterial r)
                     (with_vmaterials (fun ms => ms ++ [mkVisualMaterial None]) w)) ;;
  ret r.

Definition ChBody : M EntityRef := alloc_entity (new_entity RigidBody false).
Definition ChParticleCloud : M EntityRef := alloc_entity (new_entity ParticleCloud false).
Definition ChBodyEasyConvexHullAuxRef (points : list ChVector) (density : Q)
    (visualize collide : bool) (mat : ContactMaterial) : M EntityRef :=
  alloc_entity (new_entity (EasyConvexHullAuxRef points density visualize collide mat) collide).

Definition ChVisualShapeBox (lx ly lz : Q) : M ShapeRef := alloc_shape (Box lx ly lz).
Definition ChVisualShapeSphere (r : Q) : M ShapeRef := alloc_shape (Sphere r).
Definition ChVisualShapeCylinder (r h : Q) : M ShapeRef := alloc_shape (Cylinder r h).
Definition ChVisualShapePath : M ShapeRef := alloc_shape (Path []).
Definition ChVisualShapeLine : M ShapeRef := alloc_shape (Line None).
Definition ChVisualShapeTriangleMesh : M ShapeRef := alloc_shape (TriangleMesh []).
Definition ChVisualShapeModelFile : M ShapeRef := alloc_shape (ModelFile None).

(** *** Setters: in-place updates of the object behind a reference *)

Definition configure (e : EntityRef) (f : Entity -> Entity) : M unit :=
  modify (fun w => log (EvConfigure e) (with_entities (alter f e) w)).

Definition mutate_shape (s : ShapeRef) (f : VisualShape -> VisualShape) : M unit :=
  modify (fun w => log (EvMutateShape s) (with_shapes (alter f s) w)).

Definition SetBodyFixed (e : EntityRef) (b : bool) : M unit := configure e (set_fixed b).
Definition SetCollide (e : EntityRef) (b : bool) : M unit := configure e (set_collide b).
Definition AddCollisionShape (e : EntityRef) (c : CollisionShape) (f : ChFrame) : M unit :=
  configure e (fun x => set_collision (collision x ++ [(c, f)]) x).
Definition AddParticle (e : EntityRef) (f : ChFrame) : M unit :=
  configure e (fun x => set_particles (particles x ++ [f]) x).
Definition SetMass (e : EntityRef) (m : Q) : M unit := configure e (set_mass m).
Definition SetInertiaXX (e : EntityRef) (v : ChVector) : M unit := configure e (set_inertia v).
Definition Move (e : EntityRef) (d : ChVector) : M unit :=
  configure e (fun x => set_pose (ChFrameD (VPlus (pos (pose x)) d) (rot (pose x))) x).

Definition SetColor (s : ShapeRef) (c : ChColor) : M unit :=
  mutate_shape s (fun x => mkVisualShape (geometry x) (Some c) (texture x) (materials x)).
Definition SetTexture (s : ShapeRef) (file : string) : M unit :=
  mutate_shape s (fun x => mkVisualShape (geometry x) (color x) (Some file) (materials x)).
Definition AddMaterial (s : ShapeRef) (m : MaterialRef) : M unit :=
  mutate_shape s (fun x => mkVisualShape (geometry x) (color x) (texture x) (materials x ++ [m])).
Definition with_geometry (f : ShapeGeometry -> ShapeGeometry) (x : VisualShape) : VisualShape :=
  mkVisualShape (f (geometry x)) (color x) (texture x) (materials x).
(** [shape.GetPathGeometry().AddSubLine(l)] *)
Definition AddSubLine (s : ShapeRef) (l : ChLine) : M unit :=
  mutate_shape s (with_geometry (fun g => match g with Path ls => Path (ls ++ [l]) | _ => g end)).
Definition SetLineGeometry (s : ShapeRef) (l : ChLine) : M unit :=
  mutate_shape s (with_geometry (fun g => match g with Line _ => Line (Some l) | _ => g end)).
(** [shape.GetMesh().addTriangle(a, b, c)] *)
Definition addTriangle (s : ShapeRef) (a b c : ChVector) : M unit :=
  mutate_shape s (with_geometry (fun g => match g with
                                          | TriangleMesh ts => TriangleMesh (ts ++ [(a, b, c)])
                                          | _ => g
                                          end)).
Definition SetFilename (s : ShapeRef) (file : string) : M unit :=
  mutate_shape s (with_geometry (fun g => match g with ModelFile _ => ModelFile (Some file) | _ => g end)).

Definition SetDiffuseColor (m : MaterialRef) (c : ChColor) : M unit :=
  modify (fun w => log (EvMutateMaterial m)
                     (with_vmaterials (alter (fun _ => mkVisualMaterial (Some c)) m) w)).

Definition SetCollisionSystemType (t : CollisionSystemType) : M unit :=
  modify (with_collision_system t).

(** *** The scene: [sys.Add] and [AddVisualShape] *)

(** Modelled from the spec: [sys.Add] is a method of the Chrono library,
    which the script only calls.  It is the spec's [addEntity]: it fails with
    [DuplicateIdError] if the item is already in the scene, and otherwise
    inserts it after the items already there. *)
Definition Add (e : EntityRef) : M unit :=
  fun w => if bool_decide (e ∈ system w)
           then Raise DuplicateIdError
           else Ok (tt, log (EvAdd e) (with_system (fun s => s ++ [e]) w)).

Definition observe (w : World) (s : ShapeRef) : option ShapeView :=
  x ← shapes w !! s; Some (x, (fun m => vmaterials w !! m) <$> materials x).

(** Modelled from the spec: [AddVisualShape] is a method of the Chrono
    library.  It is the spec's [attach]: it fails with [DanglingEntityError]
    if the owner is not currently in the scene; otherwise it puts the pair of
    the shape and its local frame after the owner's earlier attachments and
    returns a handle, the position of the new attachment. *)
Definition AddVisualShape (e : EntityRef) (s : ShapeRef) (f : ChFrame) : M nat :=
  fun w => if bool_decide (e ∈ system w)
           then Ok (from_option (fun x => length (visuals x)) 0%nat (entities w !! e),
                    log (EvAttach e s (observe w s))
                      (with_entities (alter (fun x => set_visuals (visuals x ++ [(s, f)]) x) e) w))
           else Raise DanglingEntityError.

(** *** The physics step *)

Definition live (sys : list EntityRef) (es : list Entity) : FrameView :=
  omap (fun r => pair r <$> es !! r) sys.

Definition step_entity (dt : Q) (items : list Entity) (e : Entity) : Entity :=
  if fixed e then e
  else let '(p, ms) := integrate dt items e in set_particles ms (set_pose p e).

Definition step_entities (dt : Q) (sys : list EntityRef) (es : list Entity) : list Entity :=
  imap (fun r e => if bool_decide (r ∈ sys) then step_entity dt (snd <$> live sys es) e else e) es.

(** Modelled from the spec: [DoStepDynamics] is a method of the Chrono
    library.  It is the spec's [step]: a non-positive [dt] is rejected with
    [InvalidTimestepError]; otherwise every item of the system is advanced by
    one tick of the solver, an item that is fixed keeping its frame. *)
Definition DoStepDynamics (dt : Q) : M unit :=
  fun w => if Qle_bool dt 0
           then Raise InvalidTimestepError
           else Ok (tt, log (EvStep dt) (with_entities (step_entities dt (system w)) w)).

(** *** The viewer *)

(** The calls that configure the viewer change nothing the script reads
    back; the trace keeps them. *)
Definition vis_call (c : VisCall) : M unit := modify (log (EvVis c)).
Definition BeginScene : M unit := modify (log EvBeginScene).
Definition Render : M unit :=
  modify (fun w => log (EvRender (live (system w) (entities w))) w).
Definition EndScene : M unit := modify (log EvEndScene).
(** [vis.GetGUIEnvironment().addStaticText(text, rectangle)] *)
Definition addStaticText (text : string) (r : recti) : M unit :=
  modify (fun w => log (EvStaticText (StaticText text r))
                     (with_gui (fun g => g ++ [StaticText text r]) w)).

End API.

(** ** The script *)

Section Script.
Context {lib : ChronoLib}.
Local Open Scope chrono_scope.
Local Open Scope Q_scope.

(** Example 1 (lines 38-87): the floor, with a box, a path and a NURBS line. *)
Definition example1 : M EntityRef :=
  floor <- ChBody ;;
  SetBodyFixed floor true ;;
  let floor_mat := ChMaterialSurfaceNSC in
  let floor_ct_shape := ChCollisionShapeBox floor_mat 20 1 20 in
  AddCollisionShape floor floor_ct_shape (ChFrameD (ChVectorD 0 (-1) 0) QUNIT) ;;
  SetCollide floor true ;;
  Add floor ;;
  boxfloor <- ChVisualShapeBox 20 1 20 ;;
  SetColor boxfloor (mkChColor 0.2 0.3 1.0) ;;
  AddVisualShape floor boxfloor (ChFrameD (ChVectorD 0 (-1) 0) QUNIT) ;;
  pathfloor <- ChVisualShapePath ;;
  let mseg1 := ChLineSegment (ChVectorD 1 2 0) (ChVectorD 1 3 0) in
  let mseg2 := ChLineSegment (ChVectorD 1 3 0) (ChVectorD 2 3 0) in
  let marc1 := ChLineArc (ChCoordsysD (ChVectorD 2 3.5 0)) 0.5 (angle_neg CH_C_PI_2) CH_C_PI_2 in
  AddSubLine pathfloor mseg1 ;;
  AddSubLine pathfloor mseg2 ;;
  AddSubLine pathfloor marc1 ;;
  AddVisualShape floor pathfloor ChFrame_identity ;;
  let v1 := ChVectorD 1 2 (-1) in
  let v2 := ChVectorD 1 3 (-1) in
  let v3 := ChVectorD 1 3 (-2) in
  let v4 := ChVectorD 1 4 (-2) in
  let controlpoints := [v1; v2; v3; v4] in
  let nurbs := SetupData 3 controlpoints (ChLineNurbs None) in
  nurbsasset <- ChVisualShapeLine ;;
  SetLineGeometry nurbsasset nurbs ;;
  AddVisualShape floor nurbsasset ChFrame_identity ;;
  ret floor.

(** One turn of the loop of lines 165-170. *)
Definition smallbox_iteration (body : EntityRef) (j : nat) : M unit :=
  smallbox <- ChVisualShapeBox 0.2 0.2 0.02 ;;
  SetColor smallbox (mkChColor (Qnat j * 0.05) (1 - Qnat j * 0.05) 0.0) ;;
  let rot := ChMatrix33D (Q_from_AngY (angle_scale (Qnat j * 21) CH_C_DEG_TO_RAD)) in
  let pos := VPlus (VRotate rot (ChVectorD 0.4 0 0)) (ChVectorD 0 (Qnat j * 0.02) 0) in
  AddVisualShape body smallbox (ChFrameD pos rot) ;;
  ret tt.

(** Example 2 (lines 123-170): one fixed body carrying many shapes. *)
Definition example2 : M EntityRef :=
  body <- ChBody ;;
  SetBodyFixed body true ;;
  Add body ;;
  orange_mat <- ChVisualMaterial_new ;;
  SetDiffuseColor orange_mat (mkChColor 0.9 0.4 0.2) ;;
  sphere <- ChVisualShapeSphere 0.5 ;;
  AddMaterial sphere orange_mat ;;
  AddVisualShape body sphere (ChFrameD (ChVectorD (-1) 0 0) QUNIT) ;;
  box <- ChVisualShapeBox 0.6 1.0 0.2 ;;
  AddMaterial box orange_mat ;;
  AddVisualShape body box (ChFrameD (ChVectorD 1 1 0) QUNIT) ;;
  cyl <- ChVisualShapeCylinder 0.3 0.7 ;;
  AddVisualShape body cyl (ChFrameD (ChVectorD 2 0.15 0) (Q_from_AngX CH_C_PI_2)) ;;
  mesh <- ChVisualShapeTriangleMesh ;;
  addTriangle mesh (ChVectorD 0 0 0) (ChVectorD 0 1 0) (ChVectorD 1 0 0) ;;
  AddMaterial mesh orange_mat ;;
  AddVisualShape body mesh (ChFrameD (ChVectorD 2 0 2) QUNIT) ;;
  AddVisualShape body mesh (ChFrameD (ChVectorD 3 0 2) QUNIT) ;;
  AddVisualShape body mesh (ChFrameD (ChVectorD 2 1 2) QUNIT) ;;
  objmesh <- ChVisualShapeModelFile ;;
  SetFilename objmesh (GetChronoDataFile "models/forklift/body.obj") ;;
  SetTexture objmesh (GetChronoDataFile "textures/bluewhite.png") ;;
  AddVisualShape body objmesh (ChFrameD (ChVectorD 0 0 2) QUNIT) ;;
  for_range 20 (smallbox_iteration body) ;;
  ret body.

(** One turn of the loop of lines 193-194; Python evaluates the two calls of
    [ChRandom()] from left to right. *)
Definition particle_iteration (particles : EntityRef) (i : nat) : M unit :=
  x <- ChRandom ;;
  z <- ChRandom ;;
  AddParticle particles (ChCoordsysD (ChVectorD (x - 2) 1.5 (z + 2))).

(** Example 3 (lines 182-221): the particle cloud and the convex hull. *)
Definition example3 : M (EntityRef * EntityRef) :=
  particles <- ChParticleCloud ;;
  let particle_mat := ChMaterialSurfaceNSC in
  let particles_ct_shape := ChCollisionShapeSphere particle_mat 0.05 in
  AddCollisionShape particles particles_ct_shape ChFrame_identity ;;
  SetCollide particles true ;;
  for_range 100 (particle_iteration particles) ;;
  SetMass particles 0.1 ;;
  SetInertiaXX particles (ChVectorD 0.001 0.001 0.001) ;;
  Add particles ;;
  sphereparticle <- ChVisualShapeSphere 0.05 ;;
  AddVisualShape particles sphereparticle ChFrame_identity ;;
  let displ := ChVectorD 1.0 0.0 0.0 in
  let v1 := VPlus (ChVectorD 0.8 0.0 0.0) displ in
  let v2 := VPlus (ChVectorD 0.8 0.3 0.0) displ in
  let v3 := VPlus (ChVectorD 0.8 0.3 0.3) displ in
  let v4 := VPlus (ChVectorD 0.0 0.3 0.3) displ in
  let v5 := VPlus (ChVectorD 0.0 0.0 0.3) displ in
  let v6 := VPlus (ChVectorD 0.8 0.0 0.3) displ in
  let mpoints := [v1; v2; v3; v4; v5; v6] in
  hull <- ChBodyEasyConvexHullAuxRef mpoints 1000 true true ChMaterialSurfaceNSC ;;
  Move hull (ChVectorD 2 0.3 0) ;;
  Add hull ;;
  ret (particles, hull).

(** Lines 224-232: the viewer. *)
Definition create_visualization : M unit :=
  vis_call AttachSystem ;;
  vis_call (SetWindowSize 1024 768) ;;
  vis_call (SetWindowTitle "Chrono::Irrlicht visualization") ;;
  vis_call Initialize ;;
  vis_call (AddLogo (GetChronoDataFile "logo_pychrono_alpha.png")) ;;
  vis_call AddSkyBox ;;
  vis_call (AddCamera (ChVectorD (-2) 3 (-4))) ;;
  vis_call AddTypicalLights.

(** The references the script holds when the loop starts. *)
Record Handles := mkHandles {
  h_floor : EntityRef;
  h_body : EntityRef;
  h_particles : EntityRef;
  h_hull : EntityRef
}.

(** Lines 19-232: everything before the loop. *)
Definition setup : M Handles :=
  print " Demo of using the assets sys to create shapes for Irrlicht visualization" ;;
  SetCollisionSystemType Type_BULLET ;;
  floor <- example1 ;;
  body <- example2 ;;
  ph <- example3 ;;
  create_visualization ;;
  ret (mkHandles floor body (fst ph) (snd ph)).

Definition timestep : Q := 0.01.

(** Lines 236-240: the body of the loop. *)
Definition frame : M unit :=
  BeginScene ;;
  Render ;;
  addStaticText "Hello World!" (mkRecti 50 60 150 80) ;;
  EndScene ;;
  DoStepDynamics timestep.

(** Lines 235-240.  [runs] lists what the successive calls of [vis.Run()]
    answer; the viewer that has no answer left has closed its window. *)
Fixpoint simulation_loop (runs : list bool) : M unit :=
  match runs with
  | true :: rest => bind frame (fun _ => simulation_loop rest)
  | _ => ret tt
  end.

(** The number of turns the loop takes: the answers before the first [False]. *)
Fixpoint iterations (runs : list bool) : nat :=
  match runs with
  | true :: rest => S (iterations rest)
  | _ => 0%nat
  end.

Definition main (runs : list bool) : M Handles :=
  h <- setup ;;
  simulation_loop runs ;;
  ret h.

End Script.

(** ** Reading a trace *)

Definition render_view (ev : Event) : option FrameView :=
  match ev with EvRender v => Some v | _ => None end.
Definition step_size (ev : Event) : option Q :=
  match ev with EvStep dt => Some dt | _ => None end.

(** The views drawn by the renders of a trace, and the sizes of its physics
    steps, each in the order they happened. *)
Definition renders (t : list Event) : list FrameView := omap render_view t.
Definition steps (t : list Event) : list Q := omap step_size t.

Inductive Phase := Rendered | Stepped.

Definition phase (ev : Event) : option Phase :=
  match ev with
  | EvRender _ => Some Rendered
  | EvStep _ => Some Stepped
  | _ => None
  end.

(** The events of the loop. *)
Definition is_frame_event (ev : Event) : bool :=
  match ev with
  | EvBeginScene | EvRender _ | EvStaticText _ | EvEndScene | EvStep _ => true
  | _ => false
  end.

(** The events by which the script itself creates an item, changes one, or
    puts one into the scene. *)
Definition is_entity_event (ev : Event) : bool :=
  match ev with
  | EvCreateEntity _ | EvConfigure _ | EvAdd _ | EvAttach _ _ _ => true
  | _ => false
  end.

Definition hello : Widget := StaticText "Hello World!" (mkRecti 50 60 150 80).

(** The events of one turn of the loop that renders [view]. *)
Definition frame_events (view : FrameView) : list Event :=
  [EvBeginScene; EvRender view; EvStaticText hello; EvEndScene; EvStep timestep].

(** [ev] changes, in place, the shape [s] or a material of the shape that an
    attachment saw as [seen]. *)
Definition mutates (s : ShapeRef) (seen : option ShapeView) (ev : Event) : bool :=
  match ev with
  | EvMutateShape s' => bool_decide (s' = s)
  | EvMutateMaterial m =>
      match seen with
      | Some (x, _) => bool_decide (m ∈ materials x)
      | None => false
      end
  | _ => false
  end.

(** No attachment of the trace is followed by a change of what it attached,
    and every attachment found its shape. *)
Fixpoint frozen (t : list Event) : bool :=
  match t with
  | [] => true
  | ev :: rest =>
      match ev with
      | EvAttach _ s seen => bool_decide (is_Some seen) && forallb (fun ev' => negb (mutates s seen ev')) rest
      | _ => true
      end && frozen rest
  end.

(** Every attachment of the trace would see in [w] what it saw when it was
    made. *)
Definition views_current (w : World) (t : list Event) : Prop :=
  Forall (fun ev => match ev with
                    | EvAttach _ s seen => observe w s = seen
                    | _ => True
                    end) t.

(** Two states of one item that differ at most in where the item, and each of
    its particles, is. *)
Definition same_but_pose (x y : Entity) : Prop :=
  kind x = kind y ∧ fixed x = fixed y ∧ collide x = collide y ∧
  mass x = mass y ∧ inertia x = inertia y ∧
  collision x = collision y ∧ visuals x = visuals y.

(** A call that always returns and leaves the items and the scene alone. *)
Definition keeps_scene (m : M unit) : Prop :=
  ∀ w : World, ∃ w' : World,
    m w = Ok (tt, w') ∧ entities w' = entities w ∧ system w' = system w.

(** The world after a successful [AddVisualShape e s f]. *)
Definition attached (e : EntityRef) (s : ShapeRef) (f : ChFrame) (w : World) : World :=
  log (EvAttach e s (observe w s))
    (with_entities (alter (fun x => set_visuals (visuals x ++ [(s, f)]) x) e) w).

Section Model.
Context {lib : ChronoLib}.
Local Open Scope chrono_scope.

(** The arena of items after [n] physics steps of the loop. *)
Definition physics (n : nat) (sys : list EntityRef) (es : list Entity) : list Entity :=
  Nat.iter n (step_entities timestep sys) es.

(** The world one turn of the loop later. *)
Definition after_frame (w : World) : World :=
  mkWorld (stdout w) (step_entities timestep (system w) (entities w)) (shapes w)
    (vmaterials w) (system w) (collision_system w) (gui w ++ [hello]) (rng w)
    (trace w ++ frame_events (live (system w) (entities w))).

Fixpoint after_frames (n : nat) (w : World) : World :=
  match n with
  | O => w
  | S k => after_frames k (after_frame w)
  end.

(** The views the renders of turns [k], [k+1], ..., [k+n-1] draw. *)
Definition views_from (k n : nat) (sys : list EntityRef) (es : list Entity) : list FrameView :=
  (fun i => live sys (physics i sys es)) <$> seq k n.

(** The world the loop starts in. *)
Definition setup_world : World :=
  match setup empty_world with
  | Ok (_, w) => w
  | Raise _ => empty_world
  end.

Definition setup_handles : Handles := mkHandles 0 1 2 3.

(** The frames lines 193-194 give the particles: the i-th particle takes the
    draws [2i] and [2i+1] of the generator. *)
Definition generated_particles : list ChFrame :=
  (fun i => ChCoordsysD (ChVectorD (ChRandom_draw (2 * i) - 2) 1.5
                                   (ChRandom_draw (2 * i + 1) + 2)))
  <$> seq 0 100.

(** The end-to-end scenario of the spec, on the same API and the same loop:
    one fixed body at the origin, in the scene, with a box attached. *)
Definition scenario_setup (lx ly lz : Q) : M (EntityRef * ShapeRef) :=
  e <- ChBody ;;
  SetBodyFixed e true ;;
  Add e ;;
  b <- ChVisualShapeBox lx ly lz ;;
  AddVisualShape e b ChFrame_identity ;;
  ret (e, b).

Definition scenario (lx ly lz : Q) (runs : list bool) : M (EntityRef * ShapeRef) :=
  eb <- scenario_setup lx ly lz ;;
  simulation_loop runs ;;
  ret eb.

(** The world and the body of the scenario when its loop starts. *)
Definition scenario_world (lx ly lz : Q) : World :=
  match scenario_setup lx ly lz empty_world with
  | Ok (_, w) => w
  | Raise _ => empty_world
  end.

Definition scenario_body : Entity :=
  set_visuals [(0%nat, ChFrame_identity)] (set_fixed true (new_entity RigidBody false)).

(** The cloud as lines 182-207 leave it. *)
Definition setup_cloud : Entity :=
  mkEntity ParticleCloud false true ChFrame_identity generated_particles
    (Some 0.1%Q) (Some (ChVectorD 0.001 0.001 0.001))
    [(ChCollisionShapeSphere ChMaterialSurfaceNSC 0.05, ChFrame_identity)]
    [(28%nat, ChFrame_identity)].

End Model.

(** A library to run the script with: items that are free fall by [dt] per
    tick, their particles with them; the generator counts in hundredths. *)
Definition falling (dt : Q) (f : ChFrame) : ChFrame :=
  ChFrameD (VPlus (pos f) (ChVectorD 0 (- dt) 0)) (rot f).

Definition free_fall : ChronoLib := {|
  integrate := fun dt _ e => (falling dt (pose e), falling dt <$> particles e);
  ChRandom_draw := fun n => (Z.of_nat (n mod 100) # 100)%Q;
  ChronoDataPath := "../data/"
|}.

(** ** What the two loops of the setup leave behind *)

Section SetupLoops.
Context {lib : ChronoLib}.
Local Open Scope Q_scope.

(** The frame line 194 builds when the generator has been called [k] times:
    x from draw [k], z from draw [k+1]. *)
Definition particle_frame (k : nat) : ChFrame :=
  ChCoordsysD (ChVectorD (ChRandom_draw k - 2) 1.5 (ChRandom_draw (S k) + 2)).

(** The frames of [n] turns of lines 193-194 that start at draw [k]. *)
Definition drawn_particles (k n : nat) : list ChFrame :=
  (fun i => particle_frame (k + 2 * i)) <$> seq 0 n.

(** The world after one turn of lines 193-194. *)
Definition after_particle (p : EntityRef) (w : World) : World :=
  log (EvConfigure p)
    (with_entities
       (alter (fun x => set_particles (particles x ++ [particle_frame (rng w)]) x) p)
       (with_rng S (with_rng S w))).

(** The box of turn [j] of lines 165-170 once line 167 has coloured it, and
    the frame line 170 attaches it at. *)
Definition smallbox_shape (j : nat) : VisualShape :=
  mkVisualShape (Box 0.2 0.2 0.02)
    (Some (mkChColor (Qnat j * 0.05) (1 - Qnat j * 0.05) 0.0)) None [].

Definition smallbox_frame (j : nat) : ChFrame :=
  ChFrameD
    (VPlus (VRotate (ChMatrix33D (Q_from_AngY (angle_scale (Qnat j * 21) CH_C_DEG_TO_RAD)))
              (ChVectorD 0.4 0 0))
       (ChVectorD 0 (Qnat j * 0.02) 0))
    (ChMatrix33D (Q_from_AngY (angle_scale (Qnat j * 21) CH_C_DEG_TO_RAD))).

(** The events of turn [j] of lines 165-170 when the new box gets reference [r]. *)
Definition smallbox_events (body : EntityRef) (r : ShapeRef) (j : nat) : list Event :=
  [EvCreateShape r; EvMutateShape r; EvAttach body r (Some (smallbox_shape j, []))].

(** The world after turn [j] of lines 165-170. *)
Definition after_smallbox (body : EntityRef) (j : nat) (w : World) : World :=
  mkWorld (stdout w)
    (alter (fun x => set_visuals (visuals x ++ [(length (shapes w), smallbox_frame j)]) x)
       body (entities w))
    (shapes w ++ [smallbox_shape j]) (vmaterials w) (system w) (collision_system w)
    (gui w) (rng w) (trace w ++ smallbox_events body (length (shapes w)) j).

End SetupLoops.

(** ** The items as the setup configures them *)

Section ConfiguredItems.
Local Open Scope Q_scope.

(** The floor as lines 38-87 leave it: fixed, colliding, one collision box
    and three visual shapes, at the frame it was created at. *)
Definition setup_floor : Entity :=
  mkEntity RigidBody true true ChFrame_identity [] None None
    [(ChCollisionShapeBox ChMaterialSurfaceNSC 20 1 20, ChFrameD (ChVectorD 0 (-1) 0) QUNIT)]
    [(0%nat, ChFrameD (ChVectorD 0 (-1) 0) QUNIT);
     (1%nat, ChFrame_identity);
     (2%nat, ChFrame_identity)].

(** The body as lines 123-170 leave it: fixed, not colliding, no collision
    shape, and twenty-seven attachments. *)
Definition setup_body : Entity :=
  mkEntity RigidBody true false ChFrame_identity [] None None []
    ([(3%nat, ChFrameD (ChVectorD (-1) 0 0) QUNIT);
      (4%nat, ChFrameD (ChVectorD 1 1 0) QUNIT);
      (5%nat, ChFrameD (ChVectorD 2 0.15 0) (Q_from_AngX CH_C_PI_2));
      (6%nat, ChFrameD (ChVectorD 2 0 2) QUNIT);
      (6%nat, ChFrameD (ChVectorD 3 0 2) QUNIT);
      (6%nat, ChFrameD (ChVectorD 2 1 2) QUNIT);
      (7%nat, ChFrameD (ChVectorD 0 0 2) QUNIT)]
     ++ ((fun j => ((8 + j)%nat, smallbox_frame j)) <$> seq 0 20)).

(** The hull as lines 209-220 leave it: built from the six points with
    density 1000, colliding, and moved by (2, 0.3, 0) from where it was
    created. *)
Definition setup_hull : Entity :=
  mkEntity
    (EasyConvexHullAuxRef
       [VPlus (ChVectorD 0.8 0.0 0.0) (ChVectorD 1.0 0.0 0.0);
        VPlus (ChVectorD 0.8 0.3 0.0) (ChVectorD 1.0 0.0 0.0);
        VPlus (ChVectorD 0.8 0.3 0.3) (ChVectorD 1.0 0.0 0.0);
        VPlus (ChVectorD 0.0 0.3 0.3) (ChVectorD 1.0 0.0 0.0);
        VPlus (ChVectorD 0.0 0.0 0.3) (ChVectorD 1.0 0.0 0.0);
        VPlus (ChVectorD 0.8 0.0 0.3) (ChVectorD 1.0 0.0 0.0)]
       1000 true true ChMaterialSurfaceNSC)
    false true
    (ChFrameD (VPlus (ChVectorD 0 0 0) (ChVectorD 2 0.3 0)) QUNIT)
    [] None None [] [].

(** The events by which an item is created, set up by a setter, or put into
    the system. *)
Definition is_lifecycle_event (ev : Event) : bool :=
  match ev with
  | EvCreateEntity _ | EvConfigure _ | EvAdd _ => true
  | _ => false
  end.

(** The lifecycle events of lines 38-221, in order: each item is created,
    then configured (the floor by three setters, the body by one, the cloud
    by two, its hundred particles and two more, the hull by [Move]), and
    only then added. *)
Definition setup_lifecycle : list Event :=
  [EvCreateEntity 0; EvConfigure 0; EvConfigure 0; EvConfigure 0; EvAdd 0;
   EvCreateEntity 1; EvConfigure 1; EvAdd 1;
   EvCreateEntity 2]
  ++ replicate 104 (EvConfigure 2)
  ++ [EvAdd 2;
      EvCreateEntity 3; EvConfigure 3; EvAdd 3]%nat.

End ConfiguredItems.

(** * Properties *)

Lemma world_eq (w w' : World) :
  stdout w = stdout w' -> entities w = entities w' -> shapes w = shapes w' ->
  vmaterials w = vmaterials w' -> system w = system w' ->
  collision_system w = collision_system w' -> gui w = gui w' -> rng w = rng w' ->
  trace w = trace w' -> w = w'.
Proof. destruct w, w'. cbn. intros; subst; reflexivity. Qed.

(** ** Traces of frames *)

Lemma renders_frames (vs : list FrameView) : renders (vs ≫= frame_events) = vs.
Proof. induction vs as [|v vs IH]; [done|]. cbn. f_equal. exact IH. Qed.

Lemma steps_frames (vs : list FrameView) :
  steps (vs ≫= frame_events) = replicate (length vs) timestep.
Proof. induction vs as [|v vs IH]; [done|]. cbn. f_equal. exact IH. Qed.

Lemma phases_frames (vs : list FrameView) :
  omap phase (vs ≫= frame_events) = (vs ≫= fun _ => [Rendered; Stepped]).
Proof. induction vs as [|v vs IH]; [done|]. cbn. do 2 f_equal. exact IH. Qed.

Lemma frames_are_frame_events (vs : list FrameView) :
  forallb is_frame_event (vs ≫= frame_events) = true.
Proof. induction vs as [|v vs IH]; [done|]. cbn. exact IH. Qed.

Lemma frame_event_not_entity_event (t : list Event) :
  forallb is_frame_event t = true -> existsb is_entity_event t = false.
Proof.
  induction t as [|ev t IH]; [done|].
  cbn. intros [Hev Ht]%andb_true_iff. rewrite (IH Ht).
  destruct ev; try discriminate; reflexivity.
Qed.

Lemma bind_after_fmap {A B C} (f : A -> B) (c : list C) (l : list A) :
  (f <$> l) ≫= (fun _ => c) = l ≫= (fun _ => c).
Proof. induction l as [|a l IH]; [done|]. cbn. f_equal. exact IH. Qed.

(** ** The physics step *)

Section Step.
Context {lib : ChronoLib}.

Lemma timestep_positive : (0 < timestep)%Q.
Proof. reflexivity. Qed.

Lemma DoStepDynamics_positive (dt : Q) (w : World) :
  (0 < dt)%Q ->
  DoStepDynamics dt w =
  Ok (tt, log (EvStep dt) (with_entities (step_entities dt (system w)) w)).
Proof.
  intros Hdt. unfold DoStepDynamics.
  destruct (Qle_bool dt 0) eqn:Hle; [|reflexivity].
  apply Qle_bool_iff in Hle. exfalso. exact (Qlt_not_le _ _ Hdt Hle).
Qed.

Lemma DoStepDynamics_nonpositive (dt : Q) (w : World) :
  (dt <= 0)%Q -> DoStepDynamics dt w = Raise InvalidTimestepError.
Proof.
  intros Hdt. unfold DoStepDynamics.
  apply Qle_bool_iff in Hdt. rewrite Hdt. reflexivity.
Qed.

Lemma step_entities_length dt sys es : length (step_entities dt sys es) = length es.
Proof. unfold step_entities. apply length_imap. Qed.

Lemma step_entities_lookup dt sys es (r : EntityRef) :
  step_entities dt sys es !! r =
  (fun e => if bool_decide (r ∈ sys)
            then step_entity dt (snd <$> live sys es) e else e) <$> es !! r.
Proof. unfold step_entities. apply list_lookup_imap. Qed.

Lemma live_length_step dt sys' sys es :
  length (live sys (step_entities dt sys' es)) = length (live sys es).
Proof.
  unfold live. induction sys as [|r sys IH]; [done|].
  cbn. rewrite step_entities_lookup.
  destruct (es !! r) as [x|]; cbn; [f_equal|]; exact IH.
Qed.

Lemma same_but_pose_refl (x : Entity) : same_but_pose x x.
Proof. repeat split. Qed.

Lemma same_but_pose_trans (x y z : Entity) :
  same_but_pose x y -> same_but_pose y z -> same_but_pose x z.
Proof.
  intros (H1 & H2 & H3 & H4 & H5 & H6 & H7) (G1 & G2 & G3 & G4 & G5 & G6 & G7).
  repeat split; congruence.
Qed.

Lemma step_entity_same dt items (x : Entity) : same_but_pose x (step_entity dt items x).
Proof.
  unfold step_entity. destruct (fixed x); [apply same_but_pose_refl|].
  destruct (integrate dt items x) as [p ms]. repeat split.
Qed.

Lemma step_entity_fixed dt items (x : Entity) :
  fixed x = true -> step_entity dt items x = x.
Proof. intros Hx. unfold step_entity. rewrite Hx. reflexivity. Qed.

Lemma step_entities_same dt sys es (r : EntityRef) (x' : Entity) :
  step_entities dt sys es !! r = Some x' ->
  exists x, es !! r = Some x /\ same_but_pose x x'.
Proof.
  rewrite step_entities_lookup. destruct (es !! r) as [x|]; [|discriminate].
  cbn. intros [= <-]. exists x. split; [reflexivity|].
  destruct (bool_decide (r ∈ sys)); [apply step_entity_same|apply same_but_pose_refl].
Qed.

Lemma physics_S (n : nat) (sys : list EntityRef) (es : list Entity) :
  physics (S n) sys es = physics n sys (step_entities timestep sys es).
Proof. unfold physics. apply Nat.iter_succ_r. Qed.

Lemma physics_length n sys es : length (physics n sys es) = length es.
Proof.
  unfold physics. induction n as [|n IH]; [done|].
  cbn. rewrite step_entities_length. exact IH.
Qed.

Lemma physics_same n sys es (r : EntityRef) (x' : Entity) :
  physics n sys es !! r = Some x' ->
  exists x, es !! r = Some x /\ same_but_pose x x'.
Proof.
  revert x'. induction n as [|n IH]; intros x' Hx'.
  - exists x'. split; [exact Hx'|apply same_but_pose_refl].
  - change (physics (S n) sys es) with (step_entities timestep sys (physics n sys es)) in Hx'.
    apply step_entities_same in Hx' as (y & Hy & Hyx).
    destruct (IH y Hy) as (x & Hx & Hxy).
    exists x. split; [exact Hx|]. exact (same_but_pose_trans _ _ _ Hxy Hyx).
Qed.

Lemma physics_fixed n sys es (r : EntityRef) (x : Entity) :
  es !! r = Some x -> fixed x = true -> physics n sys es !! r = Some x.
Proof.
  intros Hx Hfix. induction n as [|n IH]; [exact Hx|].
  change (physics (S n) sys es) with (step_entities timestep sys (physics n sys es)).
  rewrite step_entities_lookup, IH. cbn [fmap option_fmap option_map].
  destruct (bool_decide (r ∈ sys)); [|reflexivity].
  rewrite step_entity_fixed by exact Hfix. reflexivity.
Qed.

End Step.

(** ** The loop *)

Section Loop.
Context {lib : ChronoLib}.

Lemma frame_run (w : World) : frame w = Ok (tt, after_frame w).
Proof.
  unfold frame, bind, BeginScene, Render, addStaticText, EndScene, modify.
  rewrite DoStepDynamics_positive by exact timestep_positive.
  do 2 f_equal. apply world_eq; try reflexivity.
  transitivity (((((trace w ++ [EvBeginScene])
                   ++ [EvRender (live (system w) (entities w))])
                  ++ [EvStaticText hello]) ++ [EvEndScene]) ++ [EvStep timestep]);
    [reflexivity|].
  unfold after_frame, frame_events. cbn [trace].
  repeat rewrite <- app_assoc. reflexivity.
Qed.

Lemma simulation_loop_run (runs : list bool) (w : World) :
  simulation_loop runs w = Ok (tt, after_frames (iterations runs) w).
Proof.
  revert w. induction runs as [|[|] rest IH]; intros w; try reflexivity.
  cbn [simulation_loop iterations after_frames]. unfold bind.
  rewrite frame_run. apply IH.
Qed.

Lemma after_frames_system n w : system (after_frames n w) = system w.
Proof. revert w; induction n as [|n IH]; intros w; [done|]. cbn. by rewrite IH. Qed.

Lemma after_frames_entities n w :
  entities (after_frames n w) = physics n (system w) (entities w).
Proof.
  revert w; induction n as [|n IH]; intros w; [done|].
  cbn [after_frames]. rewrite IH, physics_S. reflexivity.
Qed.

Lemma after_frames_shapes n w :
  shapes (after_frames n w) = shapes w /\ vmaterials (after_frames n w) = vmaterials w.
Proof. revert w; induction n as [|n IH]; intros w; [done|]. exact (IH (after_frame w)). Qed.

Lemma after_frames_gui n w : gui (after_frames n w) = gui w ++ replicate n hello.
Proof.
  revert w; induction n as [|n IH]; intros w; cbn.
  - by rewrite app_nil_r.
  - rewrite IH. cbn. by rewrite <- app_assoc.
Qed.

Lemma views_from_S k n sys es :
  views_from k (S n) sys es = live sys (physics k sys es) :: views_from (S k) n sys es.
Proof. reflexivity. Qed.

Lemma views_from_shift k n sys es :
  views_from (S k) n sys es = views_from k n sys (step_entities timestep sys es).
Proof.
  unfold views_from. revert k. induction n as [|n IH]; intros k; [done|].
  cbn [seq fmap list_fmap]. rewrite physics_S. f_equal. apply IH.
Qed.

Lemma views_from_length k n sys es : length (views_from k n sys es) = n.
Proof. unfold views_from. by rewrite length_fmap, length_seq. Qed.

Lemma views_from_lookup n sys es i :
  i < n -> views_from 0 n sys es !! i = Some (live sys (physics i sys es)).
Proof.
  intros Hi. unfold views_from. rewrite list_lookup_fmap.
  rewrite lookup_seq_lt by exact Hi. reflexivity.
Qed.

Lemma after_frames_trace n w :
  trace (after_frames n w) =
  trace w ++ (views_from 0 n (system w) (entities w) ≫= frame_events).
Proof.
  revert w; induction n as [|n IH]; intros w.
  - cbn. by rewrite app_nil_r.
  - cbn [after_frames]. rewrite IH. cbn [trace after_frame system entities].
    rewrite views_from_S, views_from_shift, <- app_assoc. reflexivity.
Qed.

(** Claim C1.  Whatever [vis.Run()] answers and whatever world the loop starts in,
    the loop ends normally; over its N turns it renders N times and steps N
    times; renders and steps alternate, a render first; and the render of
    turn k+1 draws the system as k physics steps left it (as the loop found
    it, for the first turn). *)
Theorem render_before_step (runs : list bool) (w : World) :
  ∃ (w' : World) (added : list Event),
    simulation_loop runs w = Ok (tt, w') ∧
    trace w' = trace w ++ added ∧
    length (renders added) = iterations runs ∧
    length (steps added) = iterations runs ∧
    omap phase added = (seq 0 (iterations runs) ≫= fun _ => [Rendered; Stepped]) ∧
    (∀ k : nat, k < iterations runs →
       renders added !! k = Some (live (system w) (physics k (system w) (entities w)))) ∧
    entities w' = physics (iterations runs) (system w) (entities w).
Proof.
  set (n := iterations runs).
  set (vs := views_from 0 n (system w) (entities w)).
  exists (after_frames n w), (vs ≫= frame_events).
  split; [apply simulation_loop_run|].
  split; [apply after_frames_trace|].
  rewrite renders_frames, steps_frames, phases_frames, length_replicate.
  assert (Hlen : length vs = n) by apply views_from_length.
  repeat split.
  - exact Hlen.
  - exact Hlen.
  - subst vs. unfold views_from. apply bind_after_fmap.
  - intros k Hk. apply views_from_lookup, Hk.
  - apply after_frames_entities.
Qed.

(** Claim C9.  The loop only ever steps by [timestep], which is 0.01 and positive:
    the guard of [DoStepDynamics] never fires, and the loop never ends in
    [InvalidTimestepError]. *)
Theorem loop_timestep_valid (runs : list bool) (w : World) :
  timestep = 0.01%Q ∧ (0 < timestep)%Q ∧
  (∃ w1 : World, DoStepDynamics timestep w = Ok (tt, w1)) ∧
  ∃ (w' : World) (added : list Event),
    simulation_loop runs w = Ok (tt, w') ∧
    trace w' = trace w ++ added ∧
    steps added = replicate (iterations runs) timestep ∧
    simulation_loop runs w ≠ Raise InvalidTimestepError.
Proof.
  split; [reflexivity|]. split; [exact timestep_positive|]. split.
  - eexists. apply DoStepDynamics_positive, timestep_positive.
  - exists (after_frames (iterations runs) w),
      (views_from 0 (iterations runs) (system w) (entities w) ≫= frame_events).
    rewrite simulation_loop_run, steps_frames, views_from_length.
    split; [reflexivity|]. split; [apply after_frames_trace|].
    split; [reflexivity|]. discriminate.
Qed.

(** Claim C10.  Every turn of the loop adds one static text to the GUI environment,
    after [BeginScene] and [Render] and before [EndScene]; the texts pile up,
    so that N turns leave N more widgets than the loop found. *)
Theorem static_text_accumulates (runs : list bool) (w : World) :
  ∃ (w' : World) (views : list FrameView),
    simulation_loop runs w = Ok (tt, w') ∧
    length views = iterations runs ∧
    trace w' = trace w ++
      (views ≫= fun v => [EvBeginScene; EvRender v;
                          EvStaticText (StaticText "Hello World!" (mkRecti 50 60 150 80));
                          EvEndScene; EvStep timestep]) ∧
    gui w' = gui w ++
      replicate (iterations runs) (StaticText "Hello World!" (mkRecti 50 60 150 80)) ∧
    length (gui w') = length (gui w) + iterations runs.
Proof.
  exists (after_frames (iterations runs) w),
    (views_from 0 (iterations runs) (system w) (entities w)).
  split; [apply simulation_loop_run|].
  split; [apply views_from_length|].
  split; [apply after_frames_trace|].
  pose proof (after_frames_gui (iterations runs) w) as Hgui.
  split; [exact Hgui|].
  rewrite Hgui, length_app, length_replicate. reflexivity.
Qed.

(** Claim C2.  [DoStepDynamics dt] raises [InvalidTimestepError] when [dt <= 0];
    when [0 < dt] it returns, and the arena of items and the scene are as
    long as before, the scene holding the same items in the same order. *)
Theorem step_rejects_nonpositive (dt : Q) (w : World) :
  ((dt <= 0)%Q → DoStepDynamics dt w = Raise InvalidTimestepError) ∧
  ((0 < dt)%Q →
     ∃ w' : World, DoStepDynamics dt w = Ok (tt, w') ∧
       length (entities w') = length (entities w) ∧
       system w' = system w ∧
       length (live (system w') (entities w')) = length (live (system w) (entities w))).
Proof.
  split.
  - apply DoStepDynamics_nonpositive.
  - intros Hdt. eexists. split; [apply DoStepDynamics_positive, Hdt|].
    cbn. split; [apply step_entities_length|]. split; [reflexivity|].
    apply live_length_step.
Qed.

End Loop.

(** ** The scene and its attachments *)

Lemma Add_fresh (e : EntityRef) (w : World) :
  e ∉ system w ->
  Add e w = Ok (tt, log (EvAdd e) (with_system (fun s => s ++ [e]) w)).
Proof. intros He. unfold Add. rewrite bool_decide_eq_false_2 by exact He. reflexivity. Qed.

Lemma Add_inv (e : EntityRef) (w w1 : World) :
  Add e w = Ok (tt, w1) -> system w1 = system w ++ [e] /\ entities w1 = entities w.
Proof.
  unfold Add. destruct (bool_decide (e ∈ system w)); [discriminate|].
  intros [= <-]. split; reflexivity.
Qed.

Lemma AddVisualShape_member (e : EntityRef) (s : ShapeRef) (f : ChFrame) (w : World) :
  e ∈ system w ->
  AddVisualShape e s f w =
  Ok (from_option (fun x => length (visuals x)) 0%nat (entities w !! e), attached e s f w).
Proof.
  intros He. unfold AddVisualShape. rewrite bool_decide_eq_true_2 by exact He. reflexivity.
Qed.

Lemma AddVisualShape_dangling (e : EntityRef) (s : ShapeRef) (f : ChFrame) (w : World) :
  e ∉ system w -> AddVisualShape e s f w = Raise DanglingEntityError.
Proof.
  intros He. unfold AddVisualShape. rewrite bool_decide_eq_false_2 by exact He. reflexivity.
Qed.

Lemma attached_owner (e : EntityRef) (s : ShapeRef) (f : ChFrame) (w : World) (x : Entity) :
  entities w !! e = Some x ->
  entities (attached e s f w) !! e = Some (set_visuals (visuals x ++ [(s, f)]) x).
Proof.
  intros Hx. unfold attached, log, with_entities. cbn [entities].
  rewrite list_lookup_alter_eq, Hx. reflexivity.
Qed.

Lemma attached_other (e e' : EntityRef) (s : ShapeRef) (f : ChFrame) (w : World) :
  e ≠ e' -> entities (attached e s f w) !! e' = entities w !! e'.
Proof.
  intros Hne. unfold attached, log, with_entities. cbn [entities].
  apply list_lookup_alter_ne, Hne.
Qed.

Lemma live_lookup (sys : list EntityRef) (es : list Entity) (e : EntityRef) (x : Entity) :
  e ∈ sys -> es !! e = Some x -> (e, x) ∈ live sys es.
Proof.
  intros He Hx. unfold live. apply list_elem_of_omap.
  exists e. split; [exact He|]. rewrite Hx. reflexivity.
Qed.

(** Claim C3.  An item that [sys.Add] has put into the scene is in the scene, and
    [AddVisualShape] on an item of the scene returns a handle and leaves the
    scene as it was, so that later attachments succeed as well; on a
    reference that is not in the scene it raises [DanglingEntityError].
    An item not yet in the scene can always be added. *)
Theorem attach_succeeds_iff_in_scene (e : EntityRef) (s : ShapeRef) (f : ChFrame)
    (w : World) :
  (e ∉ system w → ∃ w1 : World, Add e w = Ok (tt, w1)) ∧
  (∀ w1 : World, Add e w = Ok (tt, w1) →
     e ∈ system w1 ∧ ∃ (h : nat) (w2 : World), AddVisualShape e s f w1 = Ok (h, w2)) ∧
  (e ∈ system w →
     ∃ (h : nat) (w2 : World),
       AddVisualShape e s f w = Ok (h, w2) ∧ system w2 = system w) ∧
  (e ∉ system w → AddVisualShape e s f w = Raise DanglingEntityError).
Proof.
  split; [|split; [|split]].
  - intros He. eexists. apply Add_fresh, He.
  - intros w1 Hadd. apply Add_inv in Hadd as [Hsys _].
    assert (He : e ∈ system w1) by (rewrite Hsys; apply elem_of_app; right; constructor).
    split; [exact He|]. do 2 eexists. apply AddVisualShape_member, He.
  - intros He. do 2 eexists. split; [apply AddVisualShape_member, He|reflexivity].
  - apply AddVisualShape_dangling.
Qed.

Section Attachments.
Local Open Scope chrono_scope.

(** Claim C4.  Three shapes attached to one item of the scene, one after the other,
    come after the item's earlier attachments in the order of the calls, and
    the handles count them in that order; that is the list a render walks.
    An attachment to another item in between does not touch the list. *)
Theorem attachments_in_insertion_order (e : EntityRef) (x : Entity) (w : World)
    (S1 S2 S3 : ShapeRef) (f1 f2 f3 : ChFrame) :
  e ∈ system w →
  entities w !! e = Some x →
  ∃ (w' : World) (x' : Entity),
    (h1 <- AddVisualShape e S1 f1 ;;
     h2 <- AddVisualShape e S2 f2 ;;
     h3 <- AddVisualShape e S3 f3 ;;
     ret (h1, h2, h3)) w
    = Ok ((length (visuals x), S (length (visuals x)), S (S (length (visuals x)))), w') ∧
    entities w' !! e = Some x' ∧
    visuals x' = visuals x ++ [(S1, f1); (S2, f2); (S3, f3)] ∧
    (e, x') ∈ live (system w') (entities w') ∧
    ∀ (e' : EntityRef) (s' : ShapeRef) (f' : ChFrame), e' ∈ system w → e' ≠ e →
      ∃ (h : nat) (w'' : World),
        AddVisualShape e' s' f' w = Ok (h, w'') ∧ entities w'' !! e = Some x.
Proof.
  intros He Hx.
  set (xa := set_visuals (visuals x ++ [(S1, f1)]) x).
  set (xb := set_visuals (visuals xa ++ [(S2, f2)]) xa).
  set (xc := set_visuals (visuals xb ++ [(S3, f3)]) xb).
  set (wa := attached e S1 f1 w).
  set (wb := attached e S2 f2 wa).
  set (wc := attached e S3 f3 wb).
  assert (Ha : entities wa !! e = Some xa) by (apply attached_owner, Hx).
  assert (Hb : entities wb !! e = Some xb) by (apply attached_owner, Ha).
  assert (Hc : entities wc !! e = Some xc) by (apply attached_owner, Hb).
  exists wc, xc. split; [|split; [exact Hc|split; [|split]]].
  - unfold bind.
    rewrite (AddVisualShape_member e S1 f1 w) by exact He. fold wa.
    rewrite (AddVisualShape_member e S2 f2 wa) by exact He. fold wb.
    rewrite (AddVisualShape_member e S3 f3 wb) by exact He. fold wc.
    rewrite Hx, Ha, Hb. cbn. rewrite !length_app. cbn.
    rewrite !Nat.add_1_r. reflexivity.
  - subst xc xb xa. cbn. rewrite <- !app_assoc. reflexivity.
  - apply live_lookup; [exact He|exact Hc].
  - intros e' s' f' He' Hne. do 2 eexists.
    split; [apply AddVisualShape_member, He'|].
    rewrite attached_other by exact Hne. exact Hx.
Qed.

End Attachments.

(** ** The end-to-end scenario *)

Section Scenario.
Context {lib : ChronoLib}.

Lemma scenario_setup_run (lx ly lz : Q) :
  scenario_setup lx ly lz empty_world = Ok ((0, 0), scenario_world lx ly lz).
Proof. vm_compute. reflexivity. Qed.

(** Claim C5.  One fixed body with a box, in the scene, and five turns of the loop
    at [timestep] = 0.01: the run ends without an exception, exactly five
    renders and five steps have happened, and the body is in every respect
    as it was before the loop, at the origin where it was created. *)
Theorem fixed_entity_scenario (runs : list bool) :
  iterations runs = 5 →
  ∃ (e : EntityRef) (b : ShapeRef) (w0 w : World) (x : Entity),
    scenario_setup 1 1 1 empty_world = Ok ((e, b), w0) ∧
    scenario 1 1 1 runs empty_world = Ok ((e, b), w) ∧
    timestep = 0.01%Q ∧
    system w0 = [e] ∧
    entities w0 !! e = Some x ∧
    fixed x = true ∧
    pose x = ChFrame_identity ∧
    visuals x = [(b, ChFrame_identity)] ∧
    shapes w0 !! b = Some (mkVisualShape (Box 1 1 1) None None []) ∧
    length (renders (trace w)) = 5 ∧
    steps (trace w) = replicate 5 timestep ∧
    system w = [e] ∧
    entities w !! e = Some x ∧
    renders (trace w) = replicate 5 [(e, x)].
Proof.
  intros Hruns.
  exists 0, 0, (scenario_world 1 1 1), (after_frames 5 (scenario_world 1 1 1)).
  exists scenario_body.
  assert (Hx : entities (scenario_world 1 1 1) !! 0
               = Some scenario_body)
    by reflexivity.
  split; [apply scenario_setup_run|].
  split.
  { unfold scenario, bind. rewrite scenario_setup_run, simulation_loop_run, Hruns.
    reflexivity. }
  do 7 (split; [reflexivity|]).
  rewrite after_frames_trace, after_frames_system, after_frames_entities.
  assert (Hviews : views_from 0 5 (system (scenario_world 1 1 1))
                     (entities (scenario_world 1 1 1))
                   = replicate 5 [(0, scenario_body)]).
  { unfold views_from. cbn [seq fmap list_fmap replicate]. unfold live.
    cbn [system scenario_world omap list_omap].
    repeat (rewrite (physics_fixed _ _ _ _ _ Hx) by reflexivity). reflexivity. }
  rewrite Hviews.
  split; [reflexivity|]. split; [reflexivity|]. split; [reflexivity|].
  split; [apply (physics_fixed _ _ _ _ _ Hx); reflexivity|reflexivity].
Qed.

End Scenario.

(** ** Traces in which attached shapes stay as they are *)

Lemma frozen_cons (ev : Event) (t : list Event) : frozen (ev :: t) = true -> frozen t = true.
Proof. cbn [frozen]. intros [_ Ht]%andb_true_iff. exact Ht. Qed.

Lemma frozen_sound (t : list Event) :
  frozen t = true ->
  forall before e s seen after,
    t = before ++ EvAttach e s seen :: after ->
    is_Some seen /\ Forall (fun ev => mutates s seen ev = false) after.
Proof.
  intros Ht before. revert t Ht.
  induction before as [|b before IH]; intros t Ht e s seen after ->.
  - cbn in Ht. apply andb_true_iff in Ht as [Hhead _].
    apply andb_true_iff in Hhead as [Hseen Hafter].
    split; [exact (bool_decide_eq_true_1 _ Hseen)|].
    apply Forall_forall. intros ev Hev.
    rewrite forallb_forall in Hafter.
    apply negb_true_iff, Hafter, list_elem_of_In, Hev.
  - apply frozen_cons in Ht. exact (IH _ Ht e s seen after eq_refl).
Qed.

Lemma frame_event_mutates_nothing (s : ShapeRef) (seen : option ShapeView) (ev : Event) :
  is_frame_event ev = true -> mutates s seen ev = false.
Proof. destruct ev; try discriminate; reflexivity. Qed.

Lemma frozen_frames (fr : list Event) : forallb is_frame_event fr = true -> frozen fr = true.
Proof.
  induction fr as [|ev fr IH]; [done|].
  cbn [forallb frozen]. intros [Hev Hfr]%andb_true_iff.
  rewrite (IH Hfr), andb_true_r. destruct ev; try discriminate; reflexivity.
Qed.

Lemma frozen_app_frames (t fr : list Event) :
  frozen t = true -> forallb is_frame_event fr = true -> frozen (t ++ fr) = true.
Proof.
  intros Ht Hfr. induction t as [|ev t IH]; [exact (frozen_frames fr Hfr)|].
  cbn [frozen app] in *. apply andb_true_iff in Ht as [Hhead Ht].
  rewrite (IH Ht), andb_true_r.
  destruct ev; try reflexivity.
  apply andb_true_iff in Hhead as [Hseen Hrest]. rewrite Hseen. cbn [andb].
  rewrite forallb_app, Hrest. cbn [andb].
  apply forallb_forall. intros ev Hev. apply negb_true_iff.
  apply frame_event_mutates_nothing.
  rewrite forallb_forall in Hfr. exact (Hfr ev Hev).
Qed.

Lemma observe_ext (w w' : World) (s : ShapeRef) :
  shapes w' = shapes w -> vmaterials w' = vmaterials w -> observe w' s = observe w s.
Proof. intros Hs Hm. unfold observe. rewrite Hs, Hm. reflexivity. Qed.

Lemma views_current_ext (w w' : World) (t : list Event) :
  shapes w' = shapes w -> vmaterials w' = vmaterials w ->
  views_current w t -> views_current w' t.
Proof.
  intros Hs Hm Ht. unfold views_current in *. eapply Forall_impl; [exact Ht|].
  intros [] Hev; try exact I. rewrite (observe_ext w w') by assumption. exact Hev.
Qed.

Lemma views_current_frames (w : World) (fr : list Event) :
  forallb is_frame_event fr = true -> views_current w fr.
Proof.
  intros Hfr. apply Forall_forall. intros ev Hev%list_elem_of_In.
  rewrite forallb_forall in Hfr. specialize (Hfr ev Hev).
  destruct ev; try discriminate; exact I.
Qed.

Lemma views_current_app (w : World) (t1 t2 : list Event) :
  views_current w t1 -> views_current w t2 -> views_current w (t1 ++ t2).
Proof. intros H1 H2. apply Forall_app. split; assumption. Qed.

Lemma views_current_sound (w : World) (t : list Event) :
  views_current w t ->
  forall before e s seen after,
    t = before ++ EvAttach e s seen :: after -> observe w s = seen.
Proof.
  intros Ht before e s seen after ->.
  apply Forall_app in Ht as [_ Ht]. apply Forall_cons in Ht as [Hhead _]. exact Hhead.
Qed.

(** ** The script before the loop *)

Section Setup.
Context {lib : ChronoLib}.

Lemma setup_run : setup empty_world = Ok (setup_handles, setup_world).
Proof. vm_compute. reflexivity. Qed.

Lemma main_run (runs : list bool) :
  main runs empty_world = Ok (setup_handles, after_frames (iterations runs) setup_world).
Proof. unfold main, bind. rewrite setup_run, simulation_loop_run. reflexivity. Qed.

Lemma setup_system : system setup_world = [0; 1; 2; 3].
Proof. vm_compute. reflexivity. Qed.

Lemma setup_entities_length : length (entities setup_world) = 4.
Proof. vm_compute. reflexivity. Qed.

Lemma setup_kinds :
  kind <$> entities setup_world =
  [RigidBody; RigidBody; ParticleCloud;
   EasyConvexHullAuxRef
     [VPlus (ChVectorD 0.8 0.0 0.0) (ChVectorD 1.0 0.0 0.0);
      VPlus (ChVectorD 0.8 0.3 0.0) (ChVectorD 1.0 0.0 0.0);
      VPlus (ChVectorD 0.8 0.3 0.3) (ChVectorD 1.0 0.0 0.0);
      VPlus (ChVectorD 0.0 0.3 0.3) (ChVectorD 1.0 0.0 0.0);
      VPlus (ChVectorD 0.0 0.0 0.3) (ChVectorD 1.0 0.0 0.0);
      VPlus (ChVectorD 0.8 0.0 0.3) (ChVectorD 1.0 0.0 0.0)]
     1000 true true ChMaterialSurfaceNSC].
Proof. vm_compute. reflexivity. Qed.

Lemma setup_frozen : frozen (trace setup_world) = true.
Proof. vm_compute. reflexivity. Qed.

Lemma setup_views_current : views_current setup_world (trace setup_world).
Proof. unfold views_current. vm_compute. repeat constructor. Qed.

Lemma setup_trace_no_frame : existsb is_frame_event (trace setup_world) = false.
Proof. vm_compute. reflexivity. Qed.

Lemma setup_cloud_lookup : entities setup_world !! 2 = Some setup_cloud.
Proof. vm_compute. reflexivity. Qed.

Lemma setup_cloud_shape :
  shapes setup_world !! 28 = Some (mkVisualShape (Sphere 0.05) None None []).
Proof. vm_compute. reflexivity. Qed.

End Setup.

(** ** The whole program *)

Section Program.
Context {lib : ChronoLib}.

Lemma main_trace (runs : list bool) :
  trace (after_frames (iterations runs) setup_world) =
  trace setup_world ++
    (views_from 0 (iterations runs) (system setup_world) (entities setup_world)
       ≫= frame_events).
Proof. apply after_frames_trace. Qed.

(** Claim C6.  In every run of the program, whenever a shape has been attached, no
    later call changes that shape or a material it refers to, and at the end
    of the run the attachment still finds what it saw when it was made.  This
    covers the mesh that lines 153-155 attach three times. *)
Theorem attached_shapes_never_mutated (runs : list bool) :
  ∃ (h : Handles) (w' : World),
    main runs empty_world = Ok (h, w') ∧
    ∀ (before after : list Event) (e : EntityRef) (s : ShapeRef)
      (seen : option ShapeView),
      trace w' = before ++ EvAttach e s seen :: after →
      (EvMutateShape s ∉ after) ∧
      (∃ (x : VisualShape) (ms : list (option ChVisualMaterial)),
         seen = Some (x, ms) ∧
         ∀ m : MaterialRef, m ∈ materials x → EvMutateMaterial m ∉ after) ∧
      observe w' s = seen.
Proof.
  set (n := iterations runs).
  exists setup_handles, (after_frames n setup_world).
  split; [apply main_run|].
  intros before after e s seen Hsplit.
  pose proof (frames_are_frame_events
                (views_from 0 n (system setup_world) (entities setup_world))) as Hfr.
  assert (Hfrozen : frozen (trace (after_frames n setup_world)) = true).
  { subst n. rewrite main_trace. apply frozen_app_frames; [apply setup_frozen|exact Hfr]. }
  assert (Hviews : views_current (after_frames n setup_world)
                     (trace (after_frames n setup_world))).
  { destruct (after_frames_shapes n setup_world) as [Hs Hm].
    apply (views_current_ext setup_world); [exact Hs|exact Hm|].
    subst n. rewrite main_trace. apply views_current_app.
    - exact setup_views_current.
    - apply views_current_frames, Hfr. }
  destruct (frozen_sound _ Hfrozen _ _ _ _ _ Hsplit) as [[[x ms] Hseen] Hafter].
  rewrite Forall_forall in Hafter.
  split; [|split].
  - intros Hin. specialize (Hafter _ Hin). cbn in Hafter.
    rewrite bool_decide_eq_true_2 in Hafter by reflexivity. discriminate.
  - exists x, ms. split; [exact Hseen|]. intros m Hm Hin.
    specialize (Hafter _ Hin). rewrite Hseen in Hafter. cbn in Hafter.
    rewrite bool_decide_eq_true_2 in Hafter by exact Hm. discriminate.
  - exact (views_current_sound _ _ Hviews _ _ _ _ _ Hsplit).
Qed.

(** Claim C7.  When the loop starts, the cloud holds the hundred frames that lines
    193-194 generated, unchanged.  At the end of every run, whatever item is
    a particle cloud is the one cloud of the script, and it holds one
    collision shape, one visual shape, one mass and one inertia for all its
    particles, as set up; between the start of the loop and its end the
    items have gone through the physics steps and nothing else. *)
Theorem particle_cloud_shares_templates (runs : list bool) :
  ∃ (h : Handles) (w0 w' : World) (cloud : Entity) (sv : ShapeRef),
    setup empty_world = Ok (h, w0) ∧
    main runs empty_world = Ok (h, w') ∧
    entities w0 !! h_particles h = Some cloud ∧
    kind cloud = ParticleCloud ∧
    particles cloud = generated_particles ∧
    length (particles cloud) = 100 ∧
    shapes w' !! sv = Some (mkVisualShape (Sphere 0.05) None None []) ∧
    (∀ (r : EntityRef) (x : Entity),
       entities w' !! r = Some x → kind x = ParticleCloud →
       r = h_particles h ∧
       collision x = [(ChCollisionShapeSphere ChMaterialSurfaceNSC 0.05, ChFrame_identity)] ∧
       visuals x = [(sv, ChFrame_identity)] ∧
       mass x = Some 0.1%Q ∧
       inertia x = Some (ChVectorD 0.001 0.001 0.001)) ∧
    entities w' = physics (iterations runs) (system w0) (entities w0).
Proof.
  set (n := iterations runs).
  exists setup_handles, setup_world, (after_frames n setup_world), setup_cloud, 28.
  split; [apply setup_run|]. split; [apply main_run|].
  split; [apply setup_cloud_lookup|]. split; [reflexivity|]. split; [reflexivity|].
  split; [reflexivity|].
  split.
  { destruct (after_frames_shapes n setup_world) as [-> _]. apply setup_cloud_shape. }
  split; [|apply after_frames_entities].
  intros r x Hx Hkind. rewrite after_frames_entities in Hx.
  apply physics_same in Hx as (x0 & Hx0 & Hk & _ & _ & Hm & Hi & Hc & Hv).
  assert (Hr : kind <$> (entities setup_world !! r) = Some ParticleCloud)
    by (rewrite Hx0; cbn; congruence).
  rewrite <- list_lookup_fmap, setup_kinds in Hr.
  destruct r as [|[|[|[|r]]]]; try discriminate Hr.
  rewrite setup_cloud_lookup in Hx0. injection Hx0 as <-.
  rewrite <- Hm, <- Hi, <- Hc, <- Hv. repeat split.
Qed.

Lemma keeps_scene_modify (f : World -> World) :
  (forall w, entities (f w) = entities w /\ system (f w) = system w) ->
  keeps_scene (modify f).
Proof. intros Hf w. exists (f w). split; [reflexivity|apply Hf]. Qed.

Lemma setup_entities_configured :
  entities setup_world = [setup_floor; setup_body; setup_cloud; setup_hull].
Proof. vm_compute. reflexivity. Qed.

Lemma setup_lifecycle_trace :
  List.filter is_lifecycle_event (trace setup_world) = setup_lifecycle.
Proof. vm_compute. reflexivity. Qed.

(** Claim C8.  The four items of the script are created, configured and in the
    scene when the loop starts: the items are then exactly the floor, the
    body, the cloud and the hull with the flags, collision shapes, mass,
    particles, attachments and (for the hull, moved by line 220) frame that
    the setup gave them; every item was created, then configured, then
    added; and no call of the loop has happened by then.  The loop creates,
    configures, adds and attaches nothing; it leaves the scene as it is; its
    items are those of the start taken through the physics steps, which
    change nothing of an item but where it is; and each of the other four
    calls of a turn leaves items and scene untouched. *)
Theorem entities_settled_before_loop (runs : list bool) :
  ∃ (h : Handles) (w0 w' : World) (added : list Event),
    setup empty_world = Ok (h, w0) ∧
    main runs empty_world = Ok (h, w') ∧
    length (entities w0) = 4 ∧
    entities w0 = [setup_floor; setup_body; setup_cloud; setup_hull] ∧
    List.filter is_lifecycle_event (trace w0) = setup_lifecycle ∧
    system w0 = [h_floor h; h_body h; h_particles h; h_hull h] ∧
    system w0 = seq 0 (length (entities w0)) ∧
    existsb is_frame_event (trace w0) = false ∧
    trace w' = trace w0 ++ added ∧
    existsb is_entity_event added = false ∧
    system w' = system w0 ∧
    length (entities w') = length (entities w0) ∧
    entities w' = physics (iterations runs) (system w0) (entities w0) ∧
    (∀ (r : EntityRef) (x' : Entity), entities w' !! r = Some x' →
       ∃ x : Entity, entities w0 !! r = Some x ∧ same_but_pose x x') ∧
    keeps_scene BeginScene ∧ keeps_scene Render ∧
    keeps_scene (addStaticText "Hello World!" (mkRecti 50 60 150 80)) ∧
    keeps_scene EndScene.
Proof.
  set (n := iterations runs).
  exists setup_handles, setup_world, (after_frames n setup_world),
    (views_from 0 n (system setup_world) (entities setup_world) ≫= frame_events).
  split; [apply setup_run|]. split; [apply main_run|].
  split; [apply setup_entities_length|].
  split; [exact setup_entities_configured|].
  split; [exact setup_lifecycle_trace|].
  split; [apply setup_system|].
  split; [rewrite setup_entities_length; apply setup_system|].
  split; [apply setup_trace_no_frame|]. split; [apply main_trace|].
  split; [apply frame_event_not_entity_event, frames_are_frame_events|].
  split; [apply after_frames_system|].
  rewrite after_frames_entities.
  split; [apply physics_length|]. split; [reflexivity|].
  split; [intros r x'; apply physics_same|].
  repeat split; apply keeps_scene_modify; intros w; split; reflexivity.
Qed.

End Program.

(** ** The theorems at concrete inputs *)

Section Instances.
Local Open Scope chrono_scope.
Local Open Scope Q_scope.

(** Attaching the box of the scenario three more times to its body, at three
    places: the body then carries it four times, in the order of the calls. *)
Lemma attachments_in_insertion_order_witness :
  0%nat ∈ system (scenario_world 1 1 1) ∧
  entities (scenario_world 1 1 1) !! 0%nat = Some scenario_body ∧
  ∃ (w' : World) (x' : Entity),
    entities w' !! 0%nat = Some x' ∧
    visuals x' = [(0%nat, ChFrame_identity);
                  (0%nat, ChCoordsysD (ChVectorD 2 0 2));
                  (0%nat, ChCoordsysD (ChVectorD 3 0 2));
                  (0%nat, ChCoordsysD (ChVectorD 2 1 2))].
Proof.
  assert (Hin : 0%nat ∈ system (scenario_world 1 1 1)) by (vm_compute; constructor).
  assert (Hx : entities (scenario_world 1 1 1) !! 0%nat = Some scenario_body)
    by (vm_compute; reflexivity).
  split; [exact Hin|]. split; [exact Hx|].
  destruct (attachments_in_insertion_order 0 scenario_body (scenario_world 1 1 1)
              0 0 0 (ChCoordsysD (ChVectorD 2 0 2)) (ChCoordsysD (ChVectorD 3 0 2))
              (ChCoordsysD (ChVectorD 2 1 2)) Hin Hx)
    as (w' & x' & _ & Hx' & Hvis & _).
  exists w', x'. split; [exact Hx'|exact Hvis].
Defined.

(** A step of the script's world by 0.01 returns and keeps its four items; a
    step by zero is refused. *)
Lemma step_rejects_nonpositive_witness :
  (∃ w' : World,
     DoStepDynamics (lib := free_fall) 0.01 (setup_world (lib := free_fall)) = Ok (tt, w') ∧
     length (entities w') = 4%nat ∧
     system w' = [0; 1; 2; 3]%nat) ∧
  DoStepDynamics (lib := free_fall) 0 (setup_world (lib := free_fall))
  = Raise InvalidTimestepError.
Proof.
  destruct (step_rejects_nonpositive (lib := free_fall) 0.01
              (setup_world (lib := free_fall))) as [_ Hpos].
  destruct (step_rejects_nonpositive (lib := free_fall) 0
              (setup_world (lib := free_fall))) as [Hneg _].
  split.
  - destruct (Hpos eq_refl) as (w' & Hrun & Hlen & Hsys & _).
    exists w'. split; [exact Hrun|]. split.
    + rewrite Hlen. vm_compute. reflexivity.
    + rewrite Hsys. vm_compute. reflexivity.
  - apply Hneg. discriminate.
Defined.

(** A body that has been created but not added cannot take a shape; once
    added it can. *)
Lemma attach_succeeds_iff_in_scene_witness :
  (∃ w0 : World,
     ChBody empty_world = Ok (0%nat, w0) ∧
     AddVisualShape 0 7 ChFrame_identity w0 = Raise DanglingEntityError ∧
     ∃ (w1 : World) (h : nat) (w2 : World),
       Add 0 w0 = Ok (tt, w1) ∧ AddVisualShape 0 7 ChFrame_identity w1 = Ok (h, w2)).
Proof.
  eexists. split; [vm_compute; reflexivity|].
  match goal with |- AddVisualShape _ _ _ ?w = _ ∧ _ =>
    destruct (attach_succeeds_iff_in_scene 0 7 ChFrame_identity w)
      as (Hadd & Hthen & _ & Hdangling)
  end.
  assert (Hout : 0%nat ∉ @nil nat) by (intros Hin; inversion Hin).
  split; [exact (Hdangling Hout)|].
  destruct (Hadd Hout) as [w1 Hw1].
  destruct (Hthen w1 Hw1) as (_ & h & w2 & Hw2).
  exists w1, h, w2. split; [exact Hw1|exact Hw2].
Defined.

(** The scenario with the free-fall library and a window that closes after
    five frames. *)
Lemma fixed_entity_scenario_witness :
  iterations [true; true; true; true; true; false] = 5%nat ∧
  ∃ (e : EntityRef) (b : ShapeRef) (w : World) (x : Entity),
    scenario (lib := free_fall) 1 1 1 [true; true; true; true; true; false] empty_world
    = Ok ((e, b), w) ∧
    length (renders (trace w)) = 5%nat ∧
    entities w !! e = Some x ∧
    pose x = ChFrame_identity.
Proof.
  split; [reflexivity|].
  destruct (fixed_entity_scenario (lib := free_fall)
              [true; true; true; true; true; false] eq_refl)
    as (e & b & w0 & w & x & _ & Hrun & _ & _ & _ & _ & Hpose & _ & _ & Hren & _ & _ & Hx & _).
  exists e, b, w, x. repeat split; assumption.
Defined.

(** With the free-fall library the hull, which is not fixed, is lower after
    two frames, while the floor has not moved: the step does act. *)
Example two_frames_of_free_fall :
  (fun w => (pose <$> (entities w !! 0%nat), pose <$> (entities w !! 3%nat)))
    (after_frames (lib := free_fall) 2 (setup_world (lib := free_fall)))
  = (Some ChFrame_identity,
     Some (ChFrameD (VPlus (VPlus (VPlus (ChVectorD 0 0 0) (ChVectorD 2 0.3 0))
                              (ChVectorD 0 (- 0.01) 0))
                       (ChVectorD 0 (- 0.01) 0)) QUNIT)).
Proof. vm_compute. reflexivity. Qed.

(** Lines 132-170: the body carries, in this order, the sphere, the box, the
    cylinder, the one mesh three times, the model file and the twenty small
    boxes. *)
Example body_visuals_in_source_order :
  (fun x => fst <$> visuals x) <$> (entities (setup_world (lib := free_fall)) !! 1%nat)
  = Some ([3; 4; 5; 6; 6; 6; 7] ++ seq 8 20)%nat.
Proof. vm_compute. reflexivity. Qed.

(** A step of size zero, or backwards, is refused; the scene is then as it
    was, because no world is returned. *)
Example zero_timestep_refused :
  DoStepDynamics (lib := free_fall) 0 (setup_world (lib := free_fall))
  = Raise InvalidTimestepError
  ∧ DoStepDynamics (lib := free_fall) (- 0.01) (setup_world (lib := free_fall))
    = Raise InvalidTimestepError.
Proof. split; reflexivity. Qed.

(** Attaching to the hull before line 221 has added it would be refused. *)
Example attach_before_add_refused :
  (hull <- ChBodyEasyConvexHullAuxRef [] 1000 true true ChMaterialSurfaceNSC ;;
   s <- ChVisualShapeSphere 0.05 ;;
   AddVisualShape hull s ChFrame_identity) empty_world
  = Raise DanglingEntityError.
Proof. vm_compute. reflexivity. Qed.

End Instances.

(** * Further properties of the script *)

(** ** The loop in any world *)

Section LoopInAnyWorld.
Context {lib : ChronoLib}.
Local Open Scope chrono_scope.

Lemma Forall_views (P : FrameView -> Prop) n sys es :
  (forall k, k < n -> P (live sys (physics k sys es))) ->
  Forall P (views_from 0 n sys es).
Proof.
  intros HP. unfold views_from. apply Forall_fmap, Forall_forall.
  intros k Hk%elem_of_seq. apply HP. lia.
Qed.

Lemma physics_lookup_is_Some n sys es (r : EntityRef) :
  is_Some (physics n sys es !! r) <-> is_Some (es !! r).
Proof. rewrite !lookup_lt_is_Some, physics_length. reflexivity. Qed.

(** The items a view shows, against those of the scene it started from. *)
Lemma live_physics_same n sys' sys es :
  Forall2 (fun a b => fst a = fst b /\ same_but_pose (snd a) (snd b))
    (live sys es) (live sys (physics n sys' es)).
Proof.
  unfold live. induction sys as [|r sys IH]; [constructor|].
  cbn [omap list_omap].
  destruct (physics n sys' es !! r) as [x'|] eqn:Hx'.
  - destruct (physics_same _ _ _ _ _ Hx') as (x & Hx & Hsame).
    rewrite Hx. cbn. constructor; [split; [reflexivity|exact Hsame]|exact IH].
  - destruct (es !! r) as [x|] eqn:Hx; [|exact IH].
    assert (Hsome : is_Some (physics n sys' es !! r))
      by (apply physics_lookup_is_Some; rewrite Hx; eauto).
    rewrite Hx' in Hsome. destruct Hsome as [? [=]].
Qed.

Lemma iterations_app_false (runs rest : list bool) :
  iterations (runs ++ false :: rest) = iterations runs.
Proof. induction runs as [|[|] runs IH]; cbn; [reflexivity|by rewrite IH|reflexivity]. Qed.

Lemma iterations_all_true (runs1 runs2 : list bool) :
  forallb id runs1 = true ->
  iterations (runs1 ++ runs2) = length runs1 + iterations runs2.
Proof.
  induction runs1 as [|[|] runs1 IH]; cbn; [reflexivity| |discriminate].
  intros H. by rewrite IH.
Qed.

Lemma after_frames_add m n w :
  after_frames (m + n) w = after_frames n (after_frames m w).
Proof. revert w. induction m as [|m IH]; intros w; [reflexivity|]. cbn. apply IH. Qed.

(** X4.  An item with [SetBodyFixed(True)] is, after any number of frames in
    any world and under any solver, the very value it was when the loop
    started; if it is in the system, every render shows it as that value. *)
Theorem fixed_items_never_move (runs : list bool) (w : World)
    (r : EntityRef) (x : Entity) :
  entities w !! r = Some x →
  fixed x = true →
  ∃ (w' : World) (added : list Event),
    simulation_loop runs w = Ok (tt, w') ∧
    trace w' = trace w ++ added ∧
    length (renders added) = iterations runs ∧
    entities w' !! r = Some x ∧
    (r ∈ system w → Forall (fun view => (r, x) ∈ view) (renders added)).
Proof.
  intros Hx Hfix. set (n := iterations runs).
  exists (after_frames n w),
    (views_from 0 n (system w) (entities w) ≫= frame_events).
  split; [apply simulation_loop_run|]. split; [apply after_frames_trace|].
  rewrite renders_frames. split; [apply views_from_length|]. split.
  - rewrite after_frames_entities. apply physics_fixed; assumption.
  - intros Hr. apply Forall_views. intros k _.
    apply live_lookup; [exact Hr|]. apply physics_fixed; assumption.
Qed.

(** X5.  Once [vis.Run()] has answered [False] the loop is over: what the
    viewer would answer afterwards changes nothing.  And frames compose: a
    loop of as many turns as [runs1] is long followed by a loop over [runs2]
    is the loop over their concatenation. *)
Theorem loop_stops_at_first_false (runs1 runs2 : list bool) (w : World) :
  simulation_loop (runs1 ++ false :: runs2) w = simulation_loop runs1 w ∧
  simulation_loop [] w = Ok (tt, w) ∧
  simulation_loop (false :: runs2) w = Ok (tt, w) ∧
  (forallb id runs1 = true →
     simulation_loop (runs1 ++ runs2) w
     = (simulation_loop runs1 ;; simulation_loop runs2) w).
Proof.
  split; [|split; [reflexivity|split; [reflexivity|]]].
  - rewrite !simulation_loop_run, iterations_app_false. reflexivity.
  - intros Htrue. unfold bind.
    rewrite (simulation_loop_run runs1 w). cbv beta iota.
    rewrite !simulation_loop_run, iterations_all_true by exact Htrue.
    rewrite after_frames_add.
    pose proof (iterations_all_true runs1 [] Htrue) as Hlen.
    rewrite app_nil_r in Hlen. cbn [iterations] in Hlen.
    rewrite Nat.add_0_r in Hlen. rewrite Hlen. reflexivity.
Qed.

(** X8.  Every render of the loop shows the items of the system in the order
    they were added, each with the attachments, collision shapes, mass and
    flags it had when the loop started: over the frames an item changes
    place and nothing else.  The loop draws no random number, prints nothing
    and touches no shape or material. *)
Theorem frames_draw_same_attachments (runs : list bool) (w : World) :
  ∃ (w' : World) (added : list Event),
    simulation_loop runs w = Ok (tt, w') ∧
    trace w' = trace w ++ added ∧
    length (renders added) = iterations runs ∧
    Forall (fun view =>
              Forall2 (fun a b => fst a = fst b ∧ same_but_pose (snd a) (snd b))
                (live (system w) (entities w)) view)
      (renders added) ∧
    shapes w' = shapes w ∧ vmaterials w' = vmaterials w ∧
    rng w' = rng w ∧ stdout w' = stdout w ∧ system w' = system w.
Proof.
  set (n := iterations runs).
  exists (after_frames n w),
    (views_from 0 n (system w) (entities w) ≫= frame_events).
  split; [apply simulation_loop_run|]. split; [apply after_frames_trace|].
  rewrite renders_frames. split; [apply views_from_length|]. split.
  { apply Forall_views. intros k _. apply live_physics_same. }
  destruct (after_frames_shapes n w) as [Hs Hm].
  split; [exact Hs|]. split; [exact Hm|].
  split; [|split; [|apply after_frames_system]].
  - clear. revert w. induction n as [|n IH]; intros w; [reflexivity|]. exact (IH (after_frame w)).
  - clear. revert w. induction n as [|n IH]; intros w; [reflexivity|]. exact (IH (after_frame w)).
Qed.

End LoopInAnyWorld.

(** ** The two loops of the setup *)

Lemma alter_snoc {A} (f : A -> A) (l : list A) (a : A) :
  alter f (length l) (l ++ [a]) = l ++ [f a].
Proof. induction l as [|b l IH]; [reflexivity|]. cbn. f_equal. exact IH. Qed.

Lemma list_alter_twice {A} (f g h : A -> A) (i : nat) (l : list A) :
  (forall x, f (g x) = h x) -> alter f i (alter g i l) = alter h i l.
Proof.
  intros Hfg. revert i. induction l as [|a l IH]; intros [|i]; cbn; try reflexivity.
  - by rewrite Hfg.
  - f_equal. apply IH.
Qed.

Section SetupLoopFacts.
Context {lib : ChronoLib}.
Local Open Scope chrono_scope.

Lemma particle_iteration_run (p : EntityRef) (i : nat) (w : World) :
  particle_iteration p i w = Ok (tt, after_particle p w).
Proof. reflexivity. Qed.

Lemma drawn_particles_S (k n : nat) :
  drawn_particles k (S n) = particle_frame k :: drawn_particles (S (S k)) n.
Proof.
  unfold drawn_particles. cbn [seq fmap list_fmap].
  rewrite Nat.mul_0_r, Nat.add_0_r. f_equal.
  rewrite <- fmap_S_seq, <- list_fmap_compose. apply list_fmap_ext.
  intros _ i _. cbn [compose]. f_equal. lia.
Qed.

Lemma particle_loop_run (p : EntityRef) (l : list nat) (w : World) :
  exists w' : World,
    for_each l (particle_iteration p) w = Ok (tt, w') /\
    rng w' = rng w + 2 * length l /\
    entities w' =
      alter (fun x => set_particles (particles x ++ drawn_particles (rng w) (length l)) x)
        p (entities w) /\
    system w' = system w /\ shapes w' = shapes w /\ vmaterials w' = vmaterials w /\
    trace w' = trace w ++ replicate (length l) (EvConfigure p).
Proof.
  revert w. induction l as [|i l IH]; intros w.
  - exists w. split; [reflexivity|]. split; [cbn; lia|]. split.
    + cbn. symmetry. apply list_alter_id. intros x. rewrite app_nil_r. by destruct x.
    + repeat split. cbn. by rewrite app_nil_r.
  - destruct (IH (after_particle p w)) as (w' & Hrun & Hrng & Hent & Hsys & Hsh & Hmat & Htr).
    exists w'. split.
    { cbn [for_each]. unfold bind. rewrite particle_iteration_run. exact Hrun. }
    split; [rewrite Hrng; cbn; lia|]. split.
    { rewrite Hent. cbn [entities after_particle log with_entities rng with_rng length].
      apply list_alter_twice. intros x. rewrite drawn_particles_S. cbn.
      rewrite <- app_assoc. reflexivity. }
    split; [exact Hsys|]. split; [exact Hsh|]. split; [exact Hmat|].
    rewrite Htr. cbn. rewrite <- app_assoc. reflexivity.
Qed.

(** X1.  [n] turns of the particle loop of lines 193-194, in any world: the
    loop returns, it has called the generator [2n] times, and the cloud has
    [n] more particles, in the order of the turns, the i-th with x from draw
    [2i] and z from draw [2i+1] counted from where the generator stood.  No
    other item, no shape and not the scene is changed. *)
Theorem particle_loop_two_draws_each (p : EntityRef) (n : nat) (w : World) :
  ∃ w' : World,
    for_range n (particle_iteration p) w = Ok (tt, w') ∧
    rng w' = rng w + 2 * n ∧
    (∀ x : Entity, entities w !! p = Some x →
       entities w' !! p
       = Some (set_particles (particles x ++ drawn_particles (rng w) n) x)) ∧
    (∀ i : nat, i < n →
       drawn_particles (rng w) n !! i
       = Some (ChCoordsysD (ChVectorD (ChRandom_draw (rng w + 2 * i) - 2) 1.5
                              (ChRandom_draw (rng w + 2 * i + 1) + 2)))) ∧
    (∀ r : EntityRef, r ≠ p → entities w' !! r = entities w !! r) ∧
    length (entities w') = length (entities w) ∧
    system w' = system w ∧ shapes w' = shapes w ∧
    trace w' = trace w ++ replicate n (EvConfigure p).
Proof.
  destruct (particle_loop_run p (seq 0 n) w)
    as (w' & Hrun & Hrng & Hent & Hsys & Hsh & _ & Htr).
  rewrite length_seq in *.
  exists w'. split; [exact Hrun|]. split; [exact Hrng|]. split.
  { intros x Hx. rewrite Hent, list_lookup_alter_eq, Hx. reflexivity. }
  split.
  { intros i Hi. unfold drawn_particles. rewrite list_lookup_fmap, lookup_seq_lt by exact Hi.
    cbn. unfold particle_frame. rewrite Nat.add_1_r. reflexivity. }
  split; [intros r Hr; rewrite Hent; apply list_lookup_alter_ne; congruence|].
  split; [rewrite Hent; apply length_alter|].
  split; [exact Hsys|]. split; [exact Hsh|exact Htr].
Qed.

End SetupLoopFacts.

Section SmallBoxes.
Local Open Scope chrono_scope.

Lemma smallbox_iteration_run (body : EntityRef) (j : nat) (w : World) :
  body ∈ system w ->
  smallbox_iteration body j w = Ok (tt, after_smallbox body j w).
Proof.
  intros Hbody.
  unfold smallbox_iteration, ChVisualShapeBox, alloc_shape, SetColor, mutate_shape.
  unfold bind, gets, modify, ret.
  cbv beta iota zeta.
  rewrite AddVisualShape_member by exact Hbody.
  do 2 f_equal. apply world_eq; try reflexivity.
  - cbn [shapes attached log with_entities with_shapes].
    rewrite alter_snoc. reflexivity.
  - unfold after_smallbox, smallbox_events, attached, observe.
    cbn [trace shapes vmaterials log with_entities with_shapes].
    rewrite alter_snoc, lookup_app_r, Nat.sub_diag by reflexivity.
    cbn. rewrite <- !app_assoc. reflexivity.
Qed.

Lemma smallbox_loop_run (body : EntityRef) (n k : nat) (w : World) :
  body ∈ system w ->
  exists w' : World,
    for_each (seq k n) (smallbox_iteration body) w = Ok (tt, w') /\
    shapes w' = shapes w ++ (smallbox_shape <$> seq k n) /\
    entities w' =
      alter (fun x => set_visuals
                        (visuals x ++
                         ((fun j => (length (shapes w) + j, smallbox_frame (k + j)))
                            <$> seq 0 n)) x)
        body (entities w) /\
    system w' = system w /\ vmaterials w' = vmaterials w /\ rng w' = rng w /\
    trace w' = trace w ++
      (seq 0 n ≫= fun j => smallbox_events body (length (shapes w) + j) (k + j)).
Proof.
  revert k w. induction n as [|n IH]; intros k w Hbody.
  - exists w. split; [reflexivity|]. split; [cbn; by rewrite app_nil_r|]. split.
    + cbn. symmetry. apply list_alter_id. intros x. rewrite app_nil_r. by destruct x.
    + repeat split. cbn. by rewrite app_nil_r.
  - destruct (IH (S k) (after_smallbox body k w) Hbody)
      as (w' & Hrun & Hsh & Hent & Hsys & Hmat & Hrng & Htr).
    exists w'. split.
    { cbn [seq for_each]. unfold bind. rewrite smallbox_iteration_run by exact Hbody.
      exact Hrun. }
    assert (Hlen : length (shapes (after_smallbox body k w)) = S (length (shapes w)))
      by (cbn; rewrite length_app; cbn; lia).
    rewrite Hlen in Hent, Htr.
    split; [rewrite Hsh; cbn; by rewrite <- app_assoc|]. split.
    { rewrite Hent. cbn [entities after_smallbox]. apply list_alter_twice.
      intros [kd fx cl po pa ms ine co vi]. unfold set_visuals.
      cbn [visuals kind fixed collide pose particles mass inertia collision
             seq fmap list_fmap].
      f_equal. rewrite <- app_assoc, !Nat.add_0_r. cbn [app]. do 2 f_equal.
      rewrite <- fmap_S_seq, <- list_fmap_compose. apply list_fmap_ext.
      intros _ j _. cbn [compose]. f_equal; [lia|f_equal; lia]. }
    split; [exact Hsys|]. split; [exact Hmat|]. split; [exact Hrng|].
    rewrite Htr. cbn [trace after_smallbox seq mbind list_bind].
    rewrite <- app_assoc, !Nat.add_0_r. do 2 f_equal.
    rewrite <- fmap_S_seq, list_fmap_bind. apply list_bind_ext; [|reflexivity].
    intros j. cbn [compose]. f_equal; [lia|lia].
Qed.

(** X2.  [n] turns of the loop of lines 165-170 on a body of the scene, in
    any world: the loop returns; it has made [n] new shapes, one per turn,
    each with the colour of its own turn; the body carries them after its
    earlier attachments in the order of the turns, each exactly once and at
    the frame of its turn; each attachment saw the colour of its turn, since
    the colour is set before the shape is attached; no other item and no
    earlier shape is changed. *)
Theorem smallbox_loop_fresh_shapes (body : EntityRef) (n : nat) (w : World) (x : Entity) :
  body ∈ system w →
  entities w !! body = Some x →
  ∃ w' : World,
    for_range n (smallbox_iteration body) w = Ok (tt, w') ∧
    shapes w' = shapes w ++ (smallbox_shape <$> seq 0 n) ∧
    entities w' !! body
    = Some (set_visuals
              (visuals x ++
               ((fun j => (length (shapes w) + j, smallbox_frame j)) <$> seq 0 n)) x) ∧
    (∀ r : EntityRef, r ≠ body → entities w' !! r = entities w !! r) ∧
    (∀ s : ShapeRef, s < length (shapes w) → shapes w' !! s = shapes w !! s) ∧
    (∀ j : nat, j < n → shapes w' !! (length (shapes w) + j) = Some (smallbox_shape j)) ∧
    system w' = system w ∧
    trace w' = trace w ++
      (seq 0 n ≫= fun j => smallbox_events body (length (shapes w) + j) j).
Proof.
  intros Hbody Hx.
  destruct (smallbox_loop_run body n 0 w Hbody)
    as (w' & Hrun & Hsh & Hent & Hsys & _ & _ & Htr).
  exists w'. split; [exact Hrun|]. split; [exact Hsh|]. split.
  { rewrite Hent, list_lookup_alter_eq, Hx. reflexivity. }
  split; [intros r Hr; rewrite Hent; apply list_lookup_alter_ne; congruence|].
  split; [intros s Hs; rewrite Hsh; apply lookup_app_l, Hs|].
  split.
  { intros j Hj. rewrite Hsh, lookup_app_r by lia.
    replace (length (shapes w) + j - length (shapes w)) with j by lia.
    rewrite list_lookup_fmap, lookup_seq_lt by exact Hj. reflexivity. }
  split; [exact Hsys|exact Htr].
Qed.

(** X9.  Visual shapes and collision shapes of an item are independent:
    attaching a visual shape leaves the collision shapes of every item as
    they are, adding a collision shape leaves the visual attachments of
    every item as they are, and the two calls on one item give the same
    items in either order. *)
Theorem visual_and_collision_shapes_independent (e : EntityRef) (s : ShapeRef)
    (f fc : ChFrame) (c : CollisionShape) (w : World) :
  e ∈ system w →
  ∃ (h : nat) (w1 w2 w12 w21 : World),
    AddVisualShape e s f w = Ok (h, w1) ∧
    AddCollisionShape e c fc w = Ok (tt, w2) ∧
    collision <$> entities w1 = collision <$> entities w ∧
    visuals <$> entities w2 = visuals <$> entities w ∧
    (AddVisualShape e s f ;; AddCollisionShape e c fc) w = Ok (tt, w12) ∧
    (AddCollisionShape e c fc ;; AddVisualShape e s f ;; ret tt) w = Ok (tt, w21) ∧
    entities w12 = entities w21 ∧
    system w12 = system w21 ∧ shapes w12 = shapes w21.
Proof.
  intros He. do 5 eexists.
  split; [apply AddVisualShape_member, He|].
  split; [reflexivity|].
  split.
  { apply list_eq. intros i. cbn [entities attached log with_entities].
    rewrite !list_lookup_fmap, list_lookup_alter.
    destruct (decide (e = i)) as [->|]; [|reflexivity].
    destruct (entities w !! i); reflexivity. }
  split.
  { apply list_eq. intros i. cbn [entities log with_entities].
    rewrite !list_lookup_fmap, list_lookup_alter.
    destruct (decide (e = i)) as [->|]; [|reflexivity].
    destruct (entities w !! i); reflexivity. }
  split.
  { unfold bind. rewrite AddVisualShape_member by exact He. reflexivity. }
  split.
  { unfold bind, AddCollisionShape, configure, modify. cbv beta iota.
    rewrite AddVisualShape_member by exact He. reflexivity. }
  split; [|split; reflexivity].
  cbn [entities attached log with_entities].
  rewrite !list_alter_alter_eq. apply list_alter_ext; [|reflexivity].
  intros x _. reflexivity.
Qed.

End SmallBoxes.

(** ** The setup and the solver *)

(** X7.  Everything before the loop is independent of the physics solver:
    with the same random generator and data path, two solvers give the same
    handles and the same world at line 232.  By then the generator has been
    called 200 times, one line has been printed and the GUI environment has
    received nothing from the script. *)
Theorem setup_never_calls_solver
    (solve1 solve2 : Q -> list Entity -> Entity -> ChFrame * list ChFrame)
    (draw : nat -> Q) (path : string) :
  setup (lib := Build_ChronoLib solve1 draw path) empty_world
  = setup (lib := Build_ChronoLib solve2 draw path) empty_world ∧
  rng (setup_world (lib := Build_ChronoLib solve1 draw path)) = 200 ∧
  length (stdout (setup_world (lib := Build_ChronoLib solve1 draw path))) = 1 ∧
  gui (setup_world (lib := Build_ChronoLib solve1 draw path)) = [].
Proof.
  split; [vm_compute; reflexivity|].
  split; [vm_compute; reflexivity|].
  split; vm_compute; reflexivity.
Qed.

(** ** The further properties at concrete inputs *)

Section MoreInstances.
Local Open Scope chrono_scope.
Local Open Scope Q_scope.

(** Two turns of the small-box loop on the body of the scenario. *)
Lemma smallbox_loop_fresh_shapes_witness :
  ∃ (w' : World) (x' : Entity),
    for_range 2 (smallbox_iteration 0) (scenario_world 1 1 1) = Ok (tt, w') ∧
    length (shapes w') = 3%nat ∧
    entities w' !! 0%nat = Some x' ∧
    visuals x' = [(0%nat, ChFrame_identity); (1%nat, smallbox_frame 0); (2%nat, smallbox_frame 1)].
Proof.
  assert (Hin : 0%nat ∈ system (scenario_world 1 1 1)) by (vm_compute; constructor).
  assert (Hx : entities (scenario_world 1 1 1) !! 0%nat = Some scenario_body)
    by (vm_compute; reflexivity).
  destruct (smallbox_loop_fresh_shapes 0 2 (scenario_world 1 1 1) scenario_body Hin Hx)
    as (w' & Hrun & Hsh & Hbody & _).
  exists w'. eexists. split; [exact Hrun|]. split; [rewrite Hsh; reflexivity|].
  split; [exact Hbody|reflexivity].
Defined.

(** The floor of the script over two frames of free fall. *)
Lemma fixed_items_never_move_witness :
  ∃ (x : Entity) (w' : World),
    entities (setup_world (lib := free_fall)) !! 0%nat = Some x ∧
    fixed x = true ∧
    simulation_loop (lib := free_fall) [true; true; false] (setup_world (lib := free_fall))
    = Ok (tt, w') ∧
    entities w' !! 0%nat = Some x.
Proof.
  assert (H : ∃ x : Entity,
             entities (setup_world (lib := free_fall)) !! 0%nat = Some x ∧ fixed x = true)
    by (eexists; split; vm_compute; reflexivity).
  destruct H as (x & Hx & Hfix).
  destruct (fixed_items_never_move (lib := free_fall) [true; true; false]
              (setup_world (lib := free_fall)) 0 x Hx Hfix)
    as (w' & added & Hrun & _ & _ & Hx' & _).
  exists x, w'. repeat split; assumption.
Defined.

(** A collision box and the box of the scenario on the body of the scenario. *)
Lemma visual_and_collision_shapes_independent_witness :
  ∃ (w12 w21 : World),
    (AddVisualShape 0 0 ChFrame_identity ;;
     AddCollisionShape 0 (ChCollisionShapeBox ChMaterialSurfaceNSC 1 1 1) ChFrame_identity)
      (scenario_world 1 1 1) = Ok (tt, w12) ∧
    (AddCollisionShape 0 (ChCollisionShapeBox ChMaterialSurfaceNSC 1 1 1) ChFrame_identity ;;
     AddVisualShape 0 0 ChFrame_identity ;; ret tt)
      (scenario_world 1 1 1) = Ok (tt, w21) ∧
    entities w12 = entities w21.
Proof.
  assert (Hin : 0%nat ∈ system (scenario_world 1 1 1)) by (vm_compute; constructor).
  destruct (visual_and_collision_shapes_independent 0 0 ChFrame_identity ChFrame_identity
              (ChCollisionShapeBox ChMaterialSurfaceNSC 1 1 1) (scenario_world 1 1 1) Hin)
    as (h & w1 & w2 & w12 & w21 & _ & _ & _ & _ & H12 & H21 & Hent & _).
  exists w12, w21. split; [exact H12|]. split; [exact H21|exact Hent].
Defined.

End MoreInstances.
